(** * carbonapi: the backend query dispatcher of [zipper/helper/requests.go]

    A shallow embedding of [HttpQuery] (replica picker, request executor and
    retry/failover controller) together with the properties its
    specification states about it.

    Conventions of the embedding:
    - Go's [int] values that are never subject to overflow in this code
      ([maxTries], [len(servers)], the loop variable [try]) are integers in
      [Z]; the [uint64] selection counter is a [Z] in [0, 2^64) whose
      increment wraps, as [atomic.AddUint64] does.
    - A [nil]-able pointer or interface is an [option]; a Go pair
      [(value, error)] is a pair of options.
    - The collaborators the dispatcher is handed at construction time (the
      limiter, the HTTP client, the context, the [net/url] and [net/http]
      constructors) are an interface [Env] over an abstract world [W]; every
      call through it is recorded in a log of events.
    - A run-time panic is an outcome of its own, next to a normal return.
    - A call to a collaborator returns: a limiter wait or a round trip that
      never ends is outside the model (both are bounded by the context in
      the source).
    - The logger calls have no influence on control flow and are left out. *)

From Stdlib Require Import ZArith List String Ascii Bool Lia Arith.
From Stdlib.Strings Require Import Byte.
Import ListNotations.

Set Implicit Arguments.

Local Open Scope string_scope.
Local Open Scope list_scope.
Local Open Scope Z_scope.

(* ================================================================== *)
(** * Data model *)
(* ================================================================== *)

Definition bytes := list Byte.byte.

(** Go's [len], as the [int] it returns. *)
Definition len {A : Type} (l : list A) : Z := Z.of_nat (List.length l).

(** Modelled from the spec: the package [zipper/types], which declares
    [ErrNotFound], [ErrMaxTriesExceeded] and the format [ErrFailedToFetchFmt],
    is not among the sources.  The spec's error taxonomy gives a dedicated
    not-found error, a fetch-failed error carrying the group name and the
    status code, and a max-tries-exceeded sentinel.  Every error that
    originates in a collaborator (URL parsing, request construction, the
    limiter, the transport, the body reader, the context) is [ErrForeign],
    tagged with the package it comes from. *)
Inductive error : Type :=
| ErrNotFound
| ErrMaxTriesExceeded
| ErrFailedToFetch (group : string) (statusCode : Z)
| ErrForeign (pkg : string) (msg : string).

(** Modelled from the spec: the package [zipper/errors] is not among the
    sources.  The spec describes the aggregate as an ordered, append-only
    collection of the failures of one dispatch call; [Errors_Add] is its
    [Add] method and the empty list is the zero value of [var e errors.Errors]. *)
Definition Errors := list error.

Definition Errors_Add (e : Errors) (err : error) : Errors := e ++ [err].

(** [type ServerResponse struct { Server string; Response []byte }] *)
Record ServerResponse : Type := mkServerResponse {
  Server : string;
  Response : bytes
}.

(** [type HttpQuery struct]: the fields [logger], [limiter] and [client]
    are the collaborators of [Env] below. *)
Record HttpQuery : Type := mkHttpQuery {
  groupName : string;
  servers : list string;
  maxTries : Z;
  encoding : string;
  counter : Z
}.

Definition NewHttpQuery (groupName : string) (servers : list string)
    (maxTries : Z) (encoding : string) : HttpQuery :=
  {| groupName := groupName; servers := servers; maxTries := maxTries;
     encoding := encoding; counter := 0 |}.

Definition set_counter (c : HttpQuery) (v : Z) : HttpQuery :=
  {| groupName := groupName c; servers := servers c; maxTries := maxTries c;
     encoding := encoding c; counter := v |}.

(** A computation that either yields a value or panics. *)
Inductive Result (A : Type) : Type :=
| Ok (a : A)
| Panic (msg : string).
Arguments Panic {A} msg.

(* ================================================================== *)
(** * The replica picker *)
(* ================================================================== *)

Definition uint64_modulus : Z := 2 ^ 64.

(** [atomic.AddUint64(addr, delta)]: the new value, modulo [2^64]. *)
Definition atomic_AddUint64 (old delta : Z) : Z := (old + delta) mod uint64_modulus.

(** Indexing a slice panics out of range. *)
Definition index (l : list string) (i : Z) : Result string :=
  if (i <? 0) || (len l <=? i) then Panic "index out of range"
  else match nth_error l (Z.to_nat i) with
       | Some s => Ok s
       | None => Panic "index out of range"
       end.

(** [func (c *HttpQuery) pickServer() string].  The receiver is a pointer:
    the function returns the picked address together with the receiver as
    it is left behind. *)
Definition pickServer (c : HttpQuery) : Result (string * HttpQuery) :=
  if len (servers c) =? 1 then
    match index (servers c) 0 with
    | Ok srv => Ok (srv, c)
    | Panic m => Panic m
    end
  else
    let counter' := atomic_AddUint64 (counter c) 1 in
    let c' := set_counter c counter' in
    if len (servers c) =? 0 then Panic "integer divide by zero"
    else
      let idx := counter' mod len (servers c) in
      match index (servers c) idx with
      | Ok srv => Ok (srv, c')
      | Panic m => Panic m
      end.

(** [k] calls of [pickServer] in a row on one dispatcher: the addresses in
    the order they were returned, and the dispatcher afterwards.  Concurrent
    callers are serialised by the atomic increment; this is the order of
    their increments. *)
Fixpoint pickServers (k : nat) (c : HttpQuery) : Result (list string * HttpQuery) :=
  match k with
  | O => Ok ([], c)
  | S k' =>
      match pickServer c with
      | Panic m => Panic m
      | Ok (srv, c1) =>
          match pickServers k' c1 with
          | Panic m => Panic m
          | Ok (rest, c2) => Ok (srv :: rest, c2)
          end
      end
  end.


(* ================================================================== *)
(** * Collaborators *)
(* ================================================================== *)

(** [*url.URL], as far as the dispatcher uses it: through [String()]. *)
Record URL : Type := mkURL { URL_String : string }.

(** [*http.Request]. *)
Record Request : Type := mkRequest {
  Method : string;
  RequestURL : string;
  RequestBody : option bytes;
  Header : list (string * string)
}.

(** [resp.Body], an [io.ReadCloser]: a handle that only the world can read. *)
Definition ReadCloser := nat.

(** [*http.Response]. *)
Record http_Response : Type := mkResponse {
  StatusCode : Z;
  Body : ReadCloser
}.

Definition StatusOK : Z := 200.
Definition StatusNotFound : Z := 404.

(** [req.Header.Set(key, value)] replaces whatever [key] held. *)
Definition Header_Set (req : Request) (key value : string) : Request :=
  {| Method := Method req; RequestURL := RequestURL req;
     RequestBody := RequestBody req;
     Header := (key, value)
                 :: filter (fun kv => negb (String.eqb (fst kv) key)) (Header req) |}.

(** The calls that leave the dispatcher, in the order they are made. *)
Inductive event : Type :=
| EvParse (rawurl : string)
| EvNewRequest (method url : string)
| EvHeaderSet (key value : string)
| EvEnter (name : string) (acquired : bool)
| EvDo (url : string)
| EvLeave (name : string)
| EvReadAll (body : ReadCloser)
| EvClose (body : ReadCloser).

(** What the dispatcher requires of its surroundings.  [W] is the state of
    everything outside the dispatcher: the limiter's slots, the network, the
    clock and with it the context's cancellation.  A Go result [(v, err)] of
    a constructor that fails with a nil value is a sum, [inl err] or [inr v]. *)
Record Env (W : Type) : Type := mkEnv {
  url_Parse : string -> error + URL;
  http_NewRequest : string -> string -> option bytes -> error + Request;
  zipperctx_MarshalCtx : Request -> Request;
  apictx_MarshalCtx : Request -> Request;
  limiter_Enter : W -> string -> W * option error;
  limiter_Leave : W -> string -> W;
  client_Do : W -> Request -> W * (error + http_Response);
  ioutil_ReadAll : W -> ReadCloser -> W * (bytes * option error);
  Body_Close : W -> ReadCloser -> W;
  ctx_Err : W -> option error
}.

(** The dispatcher (the object behind the pointer receiver), the world and
    the log of calls made so far. *)
Record State (W : Type) : Type := mkState {
  self : HttpQuery;
  world : W;
  log : list event
}.

Inductive Outcome (W A : Type) : Type :=
| Returned (a : A) (s : State W)
| Panicked (msg : string) (s : State W).
Arguments Panicked {W A} msg s.

(** Go's pair for a constructor result. *)
Definition go_pair {A : Type} (r : error + A) : option A * option error :=
  match r with
  | inl err => (None, Some err)
  | inr v => (Some v, None)
  end.

Section Dispatcher.

Variable W : Type.
Variable env : Env W.

Definition M (A : Type) : Type := State W -> Outcome W A.

Definition ret {A : Type} (a : A) : M A := fun s => Returned a s.

Definition bind {A B : Type} (m : M A) (k : A -> M B) : M B :=
  fun s => match m s with
           | Returned a s' => k a s'
           | Panicked msg s' => Panicked msg s'
           end.

Notation "x <- m ;; k" := (bind m (fun x => k))
  (at level 61, m at next level, right associativity).
Notation "' pat <- m ;; k" := (bind m (fun x => match x with pat => k end))
  (at level 61, pat pattern, m at next level, right associativity).
Notation "m ;;; k" := (bind m (fun _ => k))
  (at level 61, right associativity).

Definition panic {A : Type} (msg : string) : M A := fun s => Panicked msg s.

Definition emit (ev : event) : M unit :=
  fun s => Returned tt {| self := self s; world := world s; log := log s ++ [ev] |}.

Definition get_self : M HttpQuery := fun s => Returned (self s) s.

(** Using a pointer: a nil one panics. *)
Definition deref {A : Type} (p : option A) : M A :=
  match p with
  | Some v => ret v
  | None => panic "invalid memory address or nil pointer dereference"
  end.

(** [c.pickServer()] on the dispatcher of the state. *)
Definition call_pickServer : M string :=
  fun s => match pickServer (self s) with
           | Ok (srv, c') => Returned srv {| self := c'; world := world s; log := log s |}
           | Panic msg => Panicked msg s
           end.

Definition call_url_Parse (rawurl : string) : M (option URL * option error) :=
  emit (EvParse rawurl) ;;; ret (go_pair (url_Parse env rawurl)).

Definition call_http_NewRequest (method url : string) (body : option bytes)
  : M (option Request * option error) :=
  emit (EvNewRequest method url) ;;; ret (go_pair (http_NewRequest env method url body)).

(** [req.Header.Set(key, value)] through the pointer [req]. *)
Definition call_Header_Set (req : option Request) (key value : string) : M Request :=
  r <- deref req ;;
  emit (EvHeaderSet key value) ;;;
  ret (Header_Set r key value).

Definition call_limiter_Enter (name : string) : M (option error) :=
  fun s => let (w', err) := limiter_Enter env (world s) name in
           Returned err {| self := self s; world := w';
                           log := log s ++ [EvEnter name (match err with None => true | Some _ => false end)] |}.

Definition call_limiter_Leave (name : string) : M unit :=
  fun s => Returned tt {| self := self s; world := limiter_Leave env (world s) name;
                          log := log s ++ [EvLeave name] |}.

Definition call_client_Do (req : Request) : M (option http_Response * option error) :=
  fun s => let (w', r) := client_Do env (world s) req in
           Returned (go_pair r) {| self := self s; world := w';
                                   log := log s ++ [EvDo (RequestURL req)] |}.

Definition call_ioutil_ReadAll (body : ReadCloser) : M (bytes * option error) :=
  fun s => let (w', r) := ioutil_ReadAll env (world s) body in
           Returned r {| self := self s; world := w'; log := log s ++ [EvReadAll body] |}.

Definition call_Body_Close (body : ReadCloser) : M unit :=
  fun s => Returned tt {| self := self s; world := Body_Close env (world s) body;
                          log := log s ++ [EvClose body] |}.

Definition call_ctx_Err : M (option error) :=
  fun s => Returned (ctx_Err env (world s)) s.

(** [defer f(); rest]: [f] runs when [rest] returns. *)
Definition defer {A : Type} (f : M unit) (rest : M A) : M A :=
  r <- rest ;; f ;;; ret r.

(* ================================================================== *)
(** * The request executor *)
(* ================================================================== *)

(** [func (c *HttpQuery) doRequest(ctx, uri, body)], returning a
    [*ServerResponse] and an [error].
    [body] is a slice and may be nil.  The header is set on [req] before
    [err] is looked at, as in the source. *)
Definition doRequest (uri : string) (body : option bytes)
  : M (option ServerResponse * option error) :=
  c <- get_self ;;
  server <- call_pickServer ;;
  '(u, err) <- call_url_Parse (String.append server uri) ;;
  match err with
  | Some _ => ret (None, err)
  | None =>
      u <- deref u ;;
      let reader := match body with Some b => Some b | None => None end in
      '(req, err) <- call_http_NewRequest "GET" (URL_String u) reader ;;
      req <- call_Header_Set req "Accept" (encoding c) ;;
      match err with
      | Some _ => ret (None, err)
      | None =>
          let req := apictx_MarshalCtx env (zipperctx_MarshalCtx env req) in
          err <- call_limiter_Enter (groupName c) ;;
          match err with
          | Some _ => ret (None, err)
          | None =>
              '(resp, err) <- call_client_Do req ;;
              call_limiter_Leave server ;;;
              match err with
              | Some _ => ret (None, err)
              | None =>
                  resp <- deref resp ;;
                  defer (call_Body_Close (Body resp))
                    (if StatusCode resp =? StatusNotFound then
                       ret (None, Some ErrNotFound)
                     else if negb (StatusCode resp =? StatusOK) then
                       ret (None, Some (ErrFailedToFetch (groupName c) (StatusCode resp)))
                     else
                       '(body, err) <- call_ioutil_ReadAll (Body resp) ;;
                       match err with
                       | Some _ => ret (None, err)
                       | None => ret (Some {| Server := server; Response := body |}, None)
                       end)
              end
          end
      end
  end.

(* ================================================================== *)
(** * The retry/failover controller *)
(* ================================================================== *)

(** The try budget [DoQuery] computes into its local [maxTries]. *)
Definition effectiveMaxTries (c : HttpQuery) : Z :=
  if len (servers c) >? maxTries c then len (servers c) else maxTries c.

(** The loop [for try := 0; try < maxTries; try++] of [DoQuery] with the two
    statements after it.  The body neither reads [try] nor writes
    [maxTries], so the loop is determined by the number [n] of iterations
    still to run, [maxTries - try]; [e] is the aggregate so far. *)
Fixpoint tryLoop (n : nat) (uri : string) (body : option bytes) (e : Errors)
  : M (option ServerResponse * option Errors) :=
  match n with
  | O => ret (None, Some (Errors_Add e ErrMaxTriesExceeded))
  | S n' =>
      '(res, err) <- doRequest uri body ;;
      match err with
      | Some err' =>
          let e := Errors_Add e err' in
          cerr <- call_ctx_Err ;;
          match cerr with
          | Some _ => ret (None, Some e)
          | None => tryLoop n' uri body e
          end
      | None => ret (res, None)
      end
  end.

(** [func (c *HttpQuery) DoQuery(ctx, uri, body)], returning a
    [*ServerResponse] and an [*errors.Errors]. *)
Definition DoQuery (uri : string) (body : option bytes)
  : M (option ServerResponse * option Errors) :=
  c <- get_self ;;
  let maxTries := effectiveMaxTries c in
  tryLoop (Z.to_nat maxTries) uri body [].

End Dispatcher.

Arguments ret {W A} a s.
Arguments doRequest {W} env uri body s.
Arguments tryLoop {W} env n uri body e s.
Arguments DoQuery {W} env uri body s.

(* ================================================================== *)
(** * Vocabulary of the properties *)
(* ================================================================== *)

(** One try is one run of [doRequest], and each run parses exactly one URL:
    the tries in a log are its [url.Parse] calls. *)
Definition is_try (ev : event) : bool :=
  match ev with EvParse _ => true | _ => false end.

Definition tries (l : list event) : nat := List.length (filter is_try l).

(** The names handed to [Leave], in order. *)
Fixpoint leaves (l : list event) : list string :=
  match l with
  | [] => []
  | EvLeave name :: r => name :: leaves r
  | _ :: r => leaves r
  end.

(** The round trips in a log. *)
Definition is_round_trip (ev : event) : bool :=
  match ev with EvDo _ => true | _ => false end.

Definition round_trips (l : list event) : nat := List.length (filter is_round_trip l).

(** The request [doRequest] sends once the URL [u] is parsed and the
    request [r] is built. *)
Definition prepared {W : Type} (env : Env W) (c : HttpQuery) (r : Request) : Request :=
  apictx_MarshalCtx env (zipperctx_MarshalCtx env (Header_Set r "Accept" (encoding c))).

(** What a try has logged when the limiter has answered: the URL parsed,
    the request built, the [Accept] header set, the slot asked for. *)
Definition preamble (c : HttpQuery) (server uri : string) (u : URL) (acquired : bool)
  : list event :=
  [EvParse (String.append server uri);
   EvNewRequest "GET" (URL_String u);
   EvHeaderSet "Accept" (encoding c);
   EvEnter (groupName c) acquired].

(** [GetsSlot env uri body s server c' u req w1]: from state [s], [doRequest]
    picks [server] (leaving the dispatcher as [c']), parses the URL [u],
    builds the request [req] it will send and is granted a slot by the
    limiter, which leaves the world as [w1]. *)
Definition GetsSlot {W : Type} (env : Env W) (uri : string) (body : option bytes)
    (s : State W) (server : string) (c' : HttpQuery) (u : URL) (req : Request) (w1 : W) : Prop :=
  exists r,
    pickServer (self s) = Ok (server, c') /\
    url_Parse env (String.append server uri) = inr u /\
    http_NewRequest env "GET" (URL_String u) body = inr r /\
    req = prepared env (self s) r /\
    limiter_Enter env (world s) (groupName (self s)) = (w1, None).

(** [FailedTries env uri body k s errs s']: starting in [s], [k] tries in a
    row fail with the errors [errs], the context is not cancelled after any
    of them, and they leave the state [s']. *)
Inductive FailedTries {W : Type} (env : Env W) (uri : string) (body : option bytes)
  : nat -> State W -> list error -> State W -> Prop :=
| FailedTries_O : forall s, FailedTries env uri body O s [] s
| FailedTries_S : forall k s res err s1 errs s2,
    doRequest env uri body s = Returned (res, Some err) s1 ->
    ctx_Err env (world s1) = None ->
    FailedTries env uri body k s1 errs s2 ->
    FailedTries env uri body (S k) s (err :: errs) s2.

(** A cancelled context stays cancelled whatever happens in the world, and
    the client refuses a round trip under a cancelled context. *)
Record HonoursCancellation {W : Type} (env : Env W) : Prop := {
  Enter_keeps_cancelled : forall w name,
    ctx_Err env w <> None -> ctx_Err env (fst (limiter_Enter env w name)) <> None;
  Leave_keeps_cancelled : forall w name,
    ctx_Err env w <> None -> ctx_Err env (limiter_Leave env w name) <> None;
  Do_keeps_cancelled : forall w req,
    ctx_Err env w <> None -> ctx_Err env (fst (client_Do env w req)) <> None;
  Do_refuses_cancelled : forall w req,
    ctx_Err env w <> None -> exists err, snd (client_Do env w req) = inl err
}.

(** Request construction succeeds where [doRequest] asks for it: for the
    method [GET] and the [String()] of a URL that [url.Parse] has accepted. *)
Definition RequestsBuild {W : Type} (env : Env W) : Prop :=
  forall rawurl u body,
    url_Parse env rawurl = inr u ->
    exists r, http_NewRequest env "GET" (URL_String u) body = inr r.

(** The replica index of call number [j] on a counter that stood at [a]
    before the first call, for [n] replicas: wrapped, and as the spec has it. *)
Definition wrapped_index (n a : Z) (j : nat) : Z :=
  ((a + Z.of_nat j) mod uint64_modulus) mod n.

Definition rotating_index (n a : Z) (j : nat) : Z := (a + Z.of_nat j) mod n.

(** The replica at position [i] of the list. *)
Definition replica (l : list string) (i : Z) : string := nth (Z.to_nat i) l "".

Definition floor_div (m n : Z) : Z := m / n.
Definition ceil_div (m n : Z) : Z := (m + n - 1) / n.

(** The outcome is exactly one populated slot. *)
Definition one_slot {R E : Type} (r : option R * option (list E)) : Prop :=
  match r with
  | (Some _, None) => True
  | (None, Some (_ :: _)) => True
  | _ => False
  end.

(* ================================================================== *)
(** * A small world to run the dispatcher in *)
(* ================================================================== *)

Module Sim.

(** A clock that advances with every limiter and client call, and the
    slots currently held, by name. *)
Record World : Type := mkWorld { now : nat; held : list string }.

Record Config : Type := mkConfig {
  deadline : option nat;
  capacity : option nat;
  backend : string -> error + http_Response;
  bodies : ReadCloser -> bytes * option error
}.

Definition ctxError : error := ErrForeign "context" "context canceled".
Definition slotTimeout : error := ErrForeign "limiter" "timeout exceeded".

Definition cancelled (cfg : Config) (w : World) : bool :=
  match deadline cfg with
  | Some d => (d <=? now w)%nat
  | None => false
  end.

Definition tick (w : World) : World := {| now := S (now w); held := held w |}.

(** [url.Parse] refuses a URL that starts with a colon (missing scheme). *)
Definition parse (rawurl : string) : error + URL :=
  match rawurl with
  | String ":"%char _ => inl (ErrForeign "net/url" "missing protocol scheme")
  | _ => inr (mkURL rawurl)
  end.

(** The characters of a method: the token characters of HTTP. *)
Definition is_token_char (a : ascii) : bool :=
  let n := nat_of_ascii a in
  ((48 <=? n) && (n <=? 57))%nat || ((65 <=? n) && (n <=? 90))%nat
  || ((97 <=? n) && (n <=? 122))%nat
  || existsb (Ascii.eqb a)
       ["!"; "#"; "$"; "%"; "&"; "'"; "*"; "+"; "-"; "."; "^"; "_"; "`"; "|"; "~"]%char.

Fixpoint all_token (m : string) : bool :=
  match m with
  | EmptyString => true
  | String a r => is_token_char a && all_token r
  end.

(** [http.NewRequest]: an empty method stands for [GET]; it fails on a
    method that is not a token and on a URL that [url.Parse] refuses. *)
Definition newRequest (method url : string) (body : option bytes) : error + Request :=
  let method := if String.eqb method "" then "GET" else method in
  if negb (all_token method) then inl (ErrForeign "net/http" "invalid method")
  else match parse url with
       | inl err => inl err
       | inr u => inr {| Method := method; RequestURL := URL_String u;
                         RequestBody := body; Header := [] |}
       end.

Definition inflight (name : string) (l : list string) : nat :=
  count_occ string_dec l name.

Fixpoint release (name : string) (l : list string) : list string :=
  match l with
  | [] => []
  | x :: r => if String.eqb x name then r else x :: release name r
  end.

(** The limiter.  Without a capacity it is the no-op limiter, which admits
    everything.  With one it grants a slot per name up to the capacity; no
    free slot, or a cancelled context, is an error and acquires nothing. *)
Definition enter (cfg : Config) (w : World) (name : string) : World * option error :=
  match capacity cfg with
  | None => (tick w, None)
  | Some cap =>
      if cancelled cfg w then (tick w, Some slotTimeout)
      else if (inflight name (held w) <? cap)%nat
           then ({| now := S (now w); held := name :: held w |}, None)
           else (tick w, Some slotTimeout)
  end.

Definition leave (w : World) (name : string) : World :=
  {| now := now w; held := release name (held w) |}.

Definition roundTrip (cfg : Config) (w : World) (req : Request)
  : World * (error + http_Response) :=
  (tick w, if cancelled cfg w then inl ctxError else backend cfg (RequestURL req)).

Definition env (cfg : Config) : Env World :=
  {| url_Parse := parse;
     http_NewRequest := newRequest;
     zipperctx_MarshalCtx := fun r => r;
     apictx_MarshalCtx := fun r => r;
     limiter_Enter := enter cfg;
     limiter_Leave := leave;
     client_Do := roundTrip cfg;
     ioutil_ReadAll := fun w b => (w, bodies cfg b);
     Body_Close := fun w _ => w;
     ctx_Err := fun w => if cancelled cfg w then Some ctxError else None |}.

(** The same world with a client whose transport does not look at the
    context: the round trip goes through although the context is cancelled. *)
Definition deaf (cfg : Config) : Env World :=
  {| url_Parse := parse;
     http_NewRequest := newRequest;
     zipperctx_MarshalCtx := fun r => r;
     apictx_MarshalCtx := fun r => r;
     limiter_Enter := enter cfg;
     limiter_Leave := leave;
     client_Do := fun w req => (tick w, backend cfg (RequestURL req));
     ioutil_ReadAll := fun w b => (w, bodies cfg b);
     Body_Close := fun w _ => w;
     ctx_Err := fun w => if cancelled cfg w then Some ctxError else None |}.

Definition start (c : HttpQuery) : State World :=
  {| self := c; world := {| now := 0; held := [] |}; log := [] |}.

(** Scenarios. *)
Definition payload : bytes := [x6f; x6b]%byte.

Definition answers (status : Z) : error + http_Response :=
  inr {| StatusCode := status; Body := 0%nat |}.

Definition unreachable : error + http_Response :=
  inl (ErrForeign "net/http" "connection refused").

Definition readable (_ : ReadCloser) : bytes * option error := (payload, None).

Definition truncated (_ : ReadCloser) : bytes * option error :=
  ([], Some (ErrForeign "io" "unexpected EOF")).

Definition three : HttpQuery :=
  NewHttpQuery "backend" ["http://a"; "http://b"; "http://c"] 1 "application/x-protobuf".

Definition one : HttpQuery :=
  NewHttpQuery "backend" ["http://a"] 1 "application/x-protobuf".

(** Every replica answers [status]; no ceiling on the group. *)
Definition uniform (status : Z) (deadline : option nat) : Config :=
  {| deadline := deadline; capacity := None; backend := fun _ => answers status;
     bodies := readable |}.

(** One request at a time for each group; every replica answers 200. *)
Definition bounded : Config :=
  {| deadline := None; capacity := Some 1%nat; backend := fun _ => answers 200;
     bodies := readable |}.

(** Only replica [http://a] is up. *)
Definition only_a : Config :=
  {| deadline := None; capacity := None;
     backend := fun url => if String.eqb url "http://a/render" then answers 200 else unreachable;
     bodies := readable |}.

(** The body of a 200 answer breaks off. *)
Definition broken_body : Config :=
  {| deadline := None; capacity := None; backend := fun _ => answers 200;
     bodies := truncated |}.

(** The request a try sends to [url] in these scenarios. *)
Definition request_to (url : string) : Request :=
  {| Method := "GET"; RequestURL := url; RequestBody := None;
     Header := [("Accept", "application/x-protobuf")] |}.

(** The state a computation ends in, and the state after [n] tries. *)
Definition state_of {A : Type} (o : Outcome World A) : State World :=
  match o with
  | Returned _ s => s
  | Panicked _ s => s
  end.

Fixpoint after (cfg : Config) (uri : string) (n : nat) (s : State World) : State World :=
  match n with
  | O => s
  | S n' => after cfg uri n' (state_of (doRequest (env cfg) uri None s))
  end.

(** A start in which the one slot of the group is taken. *)
Definition busy (c : HttpQuery) : State World :=
  {| self := c; world := {| now := 0; held := [groupName c] |}; log := [] |}.

End Sim.

(* ================================================================== *)
(** * Vocabulary of the accounting properties *)
(* ================================================================== *)

(** The slots granted, the bodies read and the bodies closed in a log. *)
Definition is_acquired (ev : event) : bool :=
  match ev with EvEnter _ true => true | _ => false end.

Definition acquired (l : list event) : nat := List.length (filter is_acquired l).

Definition is_read (ev : event) : bool :=
  match ev with EvReadAll _ => true | _ => false end.

Definition reads (l : list event) : nat := List.length (filter is_read l).

Definition is_close (ev : event) : bool :=
  match ev with EvClose _ => true | _ => false end.

Definition closes (l : list event) : nat := List.length (filter is_close l).

(** The books of a log balance: as many round trips as slots granted and
    as [Leave] calls, no more bodies closed than round trips made and no
    more bodies read than closed, and no more round trips than tries. *)
Definition Balanced (l : list event) : Prop :=
  acquired l = round_trips l /\
  List.length (leaves l) = round_trips l /\
  (reads l <= closes l)%nat /\
  (closes l <= round_trips l)%nat /\
  (round_trips l <= tries l)%nat.

(* ================================================================== *)
(** * Further dispatchers for the small world *)
(* ================================================================== *)

Module Cases.

(** Two replicas. *)
Definition two : HttpQuery :=
  NewHttpQuery "backend" ["http://a"; "http://b"] 1 "application/x-protobuf".

(** One replica whose address makes no URL. *)
Definition malformed : HttpQuery :=
  NewHttpQuery "backend" [":a"] 1 "application/x-protobuf".

(** No replica at all, without and with configured tries. *)
Definition idle : HttpQuery :=
  NewHttpQuery "backend" [] 0 "application/x-protobuf".

Definition stranded : HttpQuery :=
  NewHttpQuery "backend" [] 3 "application/x-protobuf".

End Cases.

(* ================================================================== *)
(** * The logger configuration of [vendor/github.com/lomik/zapwriter/config.go] *)
(* ================================================================== *)

Module Zapwriter.

(** [type Config struct]: six strings. *)
Record Config : Type := mkConfig {
  Logger : string;
  File : string;
  Level : string;
  Encoding : string;
  EncodingTime : string;
  EncodingDuration : string
}.

(** [func NewConfig() Config]; the field [Logger] keeps its zero value. *)
Definition NewConfig : Config :=
  {| Logger := "";
     File := "stderr";
     Level := "info";
     Encoding := "mixed";
     EncodingTime := "iso8601";
     EncodingDuration := "seconds" |}.

(** [func (c *Config) Clone() *Config]: a copy of the struct behind a new
    pointer. *)
Definition Clone (c : Config) : Config :=
  let clone := c in clone.

(** The errors of this file: the three it formats itself with [fmt.Errorf],
    format and argument kept apart, and those of the libraries it calls. *)
Inductive cfg_error : Type :=
| Errorf (format : string) (arg : string)
| Foreign (pkg : string) (msg : string).

(** [zapcore.Level], with the levels the comment on [Config.Level] lists. *)
Inductive zapcore_Level : Type :=
| DebugLevel | InfoLevel | WarnLevel | ErrorLevel
| DPanicLevel | PanicLevel | FatalLevel.

(** The encoders of [zapcore] that [encoder] chooses among. *)
Inductive TimeEncoder : Type :=
| EpochMillisTimeEncoder | EpochNanosTimeEncoder
| EpochTimeEncoder | ISO8601TimeEncoder.

Inductive DurationEncoder : Type :=
| SecondsDurationEncoder | NanosDurationEncoder | StringDurationEncoder.

Inductive LevelEncoder : Type :=
| CapitalLevelEncoder.

(** [zapcore.EncoderConfig], the fields [encoder] sets. *)
Record EncoderConfig : Type := mkEncoderConfig {
  MessageKey : string;
  LevelKey : string;
  TimeKey : string;
  NameKey : string;
  CallerKey : string;
  StacktraceKey : string;
  EncodeLevel : LevelEncoder;
  EncodeTime : TimeEncoder;
  EncodeDuration : DurationEncoder
}.

(** [zapcore.Encoder], by the constructor that made it. *)
Inductive Encoder : Type :=
| NewMixedEncoder (cfg : EncoderConfig)
| NewJSONEncoder (cfg : EncoderConfig)
| NewConsoleEncoder (cfg : EncoderConfig).

(** [zapcore.WriteSyncer], a handle on an open output. *)
Definition WriteSyncer := nat.

(** [*zap.Logger]: the no-op logger, or one on a core built of an encoder,
    an output and a level. *)
Inductive zap_Logger : Type :=
| NewNop
| zap_New (encoder : option Encoder) (ws : WriteSyncer) (level : zapcore_Level).

(** [*url.URL], as far as this file reads it: [u.Path] and
    [u.Query().Get(key)], which is empty for a key that is not there. *)
Record FileURL : Type := mkFileURL {
  Path : string;
  Query_Get : string -> string
}.

(** What the file calls and does not define: [url.Parse], the
    [UnmarshalText] of [zapcore.Level], [zap.NewAtomicLevel],
    [strings.ToLower], and [New], the writer factory of the package, which
    is not among the sources. *)
Record Lib : Type := mkLib {
  net_url_Parse : string -> cfg_error + FileURL;
  Level_UnmarshalText : string -> cfg_error + zapcore_Level;
  NewAtomicLevel : zapcore_Level;
  strings_ToLower : string -> string;
  New : string -> cfg_error + WriteSyncer
}.

(** [func (c *Config) encoder()], returning a [zapcore.Encoder], a
    [zap.AtomicLevel] and an [error].
    A [switch] with a returning [default] is a chain of tests that ends in
    the error. *)
Definition encoder (lib : Lib) (c : Config)
  : option Encoder * zapcore_Level * option cfg_error :=
  let atomicLevel := NewAtomicLevel lib in
  match net_url_Parse lib (File c) with
  | inl err => (None, atomicLevel, Some err)
  | inr u =>
      let level := Query_Get u "level" in
      let level := if String.eqb level "" then Level c else level in
      match Level_UnmarshalText lib level with
      | inl err => (None, atomicLevel, Some err)
      | inr zapLevel =>
          let atomicLevel := zapLevel in
          let encoding := Query_Get u "encoding" in
          let encoding := if String.eqb encoding "" then Encoding c else encoding in
          let encodingTime := Query_Get u "encoding-time" in
          let encodingTime :=
            if String.eqb encodingTime "" then EncodingTime c else encodingTime in
          let encodingDuration := Query_Get u "encoding-duration" in
          let encodingDuration :=
            if String.eqb encodingDuration "" then EncodingDuration c
            else encodingDuration in
          let t := strings_ToLower lib encodingTime in
          match (if String.eqb t "millis" then Some EpochMillisTimeEncoder
                 else if String.eqb t "nanos" then Some EpochNanosTimeEncoder
                 else if String.eqb t "epoch" then Some EpochTimeEncoder
                 else if String.eqb t "iso8601" || String.eqb t ""
                      then Some ISO8601TimeEncoder
                 else None) with
          | None => (None, atomicLevel,
                     Some (Errorf "unknown time encoding %#v" encodingTime))
          | Some encoderTime =>
              let d := strings_ToLower lib encodingDuration in
              match (if String.eqb d "seconds" || String.eqb d ""
                       then Some SecondsDurationEncoder
                     else if String.eqb d "nanos" then Some NanosDurationEncoder
                     else if String.eqb d "string" then Some StringDurationEncoder
                     else None) with
              | None => (None, atomicLevel,
                         Some (Errorf "unknown duration encoding %#v" encodingDuration))
              | Some encoderDuration =>
                  let encoderConfig :=
                    {| MessageKey := "message";
                       LevelKey := "level";
                       TimeKey := "timestamp";
                       NameKey := "logger";
                       CallerKey := "caller";
                       StacktraceKey := "stacktrace";
                       EncodeLevel := CapitalLevelEncoder;
                       EncodeTime := encoderTime;
                       EncodeDuration := encoderDuration |} in
                  let e := strings_ToLower lib encoding in
                  if String.eqb e "mixed" || String.eqb e "" then
                    (Some (NewMixedEncoder encoderConfig), atomicLevel, None)
                  else if String.eqb e "json" then
                    (Some (NewJSONEncoder encoderConfig), atomicLevel, None)
                  else if String.eqb e "console" then
                    (Some (NewConsoleEncoder encoderConfig), atomicLevel, None)
                  else
                    (None, atomicLevel, Some (Errorf "unknown encoding %#v" encoding))
              end
          end
      end
  end.

(** [func (c *Config) build(checkOnly bool)], returning a [*zap.Logger] and
    an [error]. *)
Definition build (lib : Lib) (c : Config) (checkOnly : bool)
  : option zap_Logger * option cfg_error :=
  match net_url_Parse lib (File c) with
  | inl err => (None, Some err)
  | inr u =>
      match encoder lib c with
      | (_, _, Some err) => (None, Some err)
      | (encoder, atomicLevel, None) =>
          if checkOnly then (None, None)
          else if String.eqb (strings_ToLower lib (Path u)) "none" then
            (Some NewNop, None)
          else
            match New lib (File c) with
            | inl err => (None, Some err)
            | inr ws => (Some (zap_New encoder ws atomicLevel), None)
            end
      end
  end.

(** [func (c *Config) Check() error] *)
Definition Check (lib : Lib) (c : Config) : option cfg_error :=
  snd (build lib c true).

(** [func (c *Config) BuildLogger()], returning a [*zap.Logger] and an
    [error]. *)
Definition BuildLogger (lib : Lib) (c : Config) : option zap_Logger * option cfg_error :=
  build lib c false.

(** ** Vocabulary *)

(** A setting as [encoder] resolves it: the query parameter of the file
    URL, or the field of the configuration when the parameter is empty. *)
Definition effective (u : FileURL) (key fallback : string) : string :=
  if String.eqb (Query_Get u key) "" then fallback else Query_Get u key.

Definition time_encodings : list string := ["millis"; "nanos"; "epoch"; "iso8601"; ""].
Definition duration_encodings : list string := ["seconds"; ""; "nanos"; "string"].
Definition encodings : list string := ["mixed"; ""; "json"; "console"].

(** The configurations [encoder] accepts. *)
Definition Valid (lib : Lib) (c : Config) : Prop :=
  exists u lvl,
    net_url_Parse lib (File c) = inr u /\
    Level_UnmarshalText lib (effective u "level" (Level c)) = inr lvl /\
    In (strings_ToLower lib (effective u "encoding-time" (EncodingTime c)))
       time_encodings /\
    In (strings_ToLower lib (effective u "encoding-duration" (EncodingDuration c)))
       duration_encodings /\
    In (strings_ToLower lib (effective u "encoding" (Encoding c))) encodings.

(** The same library with another writer factory. *)
Definition with_New (lib : Lib) (new : string -> cfg_error + WriteSyncer) : Lib :=
  {| net_url_Parse := net_url_Parse lib;
     Level_UnmarshalText := Level_UnmarshalText lib;
     NewAtomicLevel := NewAtomicLevel lib;
     strings_ToLower := strings_ToLower lib;
     New := new |}.

(** ** A library to run the configuration against *)

(** What comes before and after the first [sep] of a string. *)
Fixpoint cut (sep : ascii) (s : string) : string * string :=
  match s with
  | EmptyString => ("", "")
  | String a r =>
      if Ascii.eqb a sep then ("", r)
      else let (x, y) := cut sep r in (String a x, y)
  end.

(** The value of [key] in a query [k1=v1&k2=v2...]; [fuel] bounds the
    number of pairs looked at. *)
Fixpoint lookup (fuel : nat) (key q : string) : string :=
  match fuel with
  | O => ""
  | S fuel' =>
      let (pair, rest) := cut "&"%char q in
      let (k, v) := cut "="%char pair in
      if String.eqb k key then v else lookup fuel' key rest
  end.

Definition sample_Parse (file : string) : cfg_error + FileURL :=
  match file with
  | String ":"%char _ => inl (Foreign "net/url" "missing protocol scheme")
  | _ =>
      let (path, q) := cut "?"%char file in
      inr {| Path := path; Query_Get := fun key => lookup (S (String.length q)) key q |}
  end.

Definition sample_UnmarshalText (text : string) : cfg_error + zapcore_Level :=
  if String.eqb text "debug" then inr DebugLevel
  else if String.eqb text "info" || String.eqb text "" then inr InfoLevel
  else if String.eqb text "warn" then inr WarnLevel
  else if String.eqb text "error" then inr ErrorLevel
  else if String.eqb text "dpanic" then inr DPanicLevel
  else if String.eqb text "panic" then inr PanicLevel
  else if String.eqb text "fatal" then inr FatalLevel
  else inl (Foreign "zapcore" "unrecognized level").

(** Lower case, for the letters of ASCII. *)
Definition lower_ascii (a : ascii) : ascii :=
  let n := nat_of_ascii a in
  if ((65 <=? n) && (n <=? 90))%nat then ascii_of_nat (n + 32) else a.

Fixpoint sample_ToLower (s : string) : string :=
  match s with
  | EmptyString => EmptyString
  | String a r => String (lower_ascii a) (sample_ToLower r)
  end.

Definition sample_New (file : string) : cfg_error + WriteSyncer :=
  if String.eqb file "/forbidden.log" then inl (Foreign "os" "permission denied")
  else inr 1%nat.

Definition sample : Lib :=
  {| net_url_Parse := sample_Parse;
     Level_UnmarshalText := sample_UnmarshalText;
     NewAtomicLevel := InfoLevel;
     strings_ToLower := sample_ToLower;
     New := sample_New |}.

(** A writer factory that always fails. *)
Definition no_writer (_ : string) : cfg_error + WriteSyncer :=
  inl (Foreign "os" "no output").

(** Configurations to try. *)
Definition to_file (file : string) : Config :=
  {| Logger := ""; File := file; Level := "info"; Encoding := "mixed";
     EncodingTime := "iso8601"; EncodingDuration := "seconds" |}.

Definition shouting : Config :=
  {| Logger := "access"; File := "stderr?level=debug&encoding=JSON"; Level := "loud";
     Encoding := "xml"; EncodingTime := "Millis"; EncodingDuration := "" |}.

Definition whispering : Config :=
  {| Logger := ""; File := "stderr?level=debug&encoding=JSON"; Level := "";
     Encoding := "console"; EncodingTime := "Millis"; EncodingDuration := "" |}.

End Zapwriter.

(* ================================================================== *)
(** * Proof automation *)
(* ================================================================== *)

(** Unfolding the calls of the monad down to functions on states. *)
Ltac run_monad :=
  unfold call_pickServer, call_url_Parse, call_http_NewRequest,
    call_Header_Set, call_limiter_Enter, call_limiter_Leave, call_client_Do,
    call_ioutil_ReadAll, call_Body_Close, call_ctx_Err, defer;
  unfold deref, emit, panic, get_self, go_pair;
  unfold bind, ret.

Ltac step_with H := rewrite H; cbn.

Ltac tidy_log := cbn; rewrite <- ?app_assoc; cbn; try reflexivity.

(** A leaf of the case analysis of a returning [doRequest]. *)
Ltac returned_leaf :=
  let H := fresh in
  intros H; inversion H; subst; clear H; cbn;
  split; [eexists; reflexivity|];
  split; [eexists; split; [rewrite <- ?app_assoc; cbn; reflexivity|reflexivity]|];
  solve [left; split; [reflexivity|discriminate]
        |right; split; [discriminate|reflexivity]].

(** One failed try of a scenario, by evaluation: it leaves the state [st]. *)
Ltac failed_try st :=
  apply FailedTries_S with (res := None) (s1 := st);
  [vm_compute; reflexivity|vm_compute; reflexivity|].

(** A leaf of the case analysis of a returning [doRequest], with the books
    of the try. *)
Ltac try_leaf :=
  let H := fresh in
  intros H; inversion H; subst; clear H; cbn;
  eexists; eexists;
  split; [reflexivity|];
  split; [rewrite <- ?app_assoc; cbn; reflexivity|];
  split; [reflexivity|];
  split; [unfold Balanced; cbn; repeat split; lia|];
  let r := fresh in let E := fresh in
  intros r E; solve [discriminate E | inversion E; reflexivity].

(** Deciding the tests of a [switch] on the string [t]. *)
Ltac switch_on t :=
  repeat match goal with
         | |- context [String.eqb t ?k] => destruct (String.eqb_spec t k)
         | H : context [String.eqb t ?k] |- _ => destruct (String.eqb_spec t k)
         end.

(* ================================================================== *)
(** * The replica picker: proofs *)
(* ================================================================== *)

Section Picker.

Lemma len_nonneg {A : Type} (l : list A) : 0 <= len l.
Proof. unfold len. lia. Qed.

Lemma index_in_range (l : list string) (i : Z) :
  0 <= i < len l -> index l i = Ok (replica l i).
Proof.
  intros Hi. unfold index, replica.
  destruct (Z.ltb_spec i 0); [lia|].
  destruct (Z.leb_spec (len l) i); [lia|]. cbn [orb].
  assert (Hn : (Z.to_nat i < List.length l)%nat) by (unfold len in *; lia).
  rewrite (nth_error_nth' l "" Hn). reflexivity.
Qed.

Lemma pickServer_fast_path (c : HttpQuery) (s : string) :
  servers c = [s] -> pickServer c = Ok (s, c).
Proof. intros E. unfold pickServer. rewrite E. reflexivity. Qed.

(** With two replicas or more the counter is incremented, wrapping at
    [2^64], and the new value selects the replica. *)
Lemma pickServer_slow_path (c : HttpQuery) :
  2 <= len (servers c) ->
  pickServer c
  = Ok (replica (servers c) (wrapped_index (len (servers c)) (counter c) 1),
        set_counter c ((counter c + 1) mod uint64_modulus)).
Proof.
  intros Hn. unfold pickServer.
  destruct (Z.eqb_spec (len (servers c)) 1); [lia|].
  destruct (Z.eqb_spec (len (servers c)) 0); [lia|].
  unfold atomic_AddUint64.
  rewrite index_in_range by (apply Z.mod_pos_bound; lia).
  reflexivity.
Qed.

Lemma wrapped_index_shift (n a : Z) (j : nat) :
  wrapped_index n ((a + 1) mod uint64_modulus) j = wrapped_index n a (S j).
Proof.
  unfold wrapped_index. f_equal.
  rewrite Zplus_mod_idemp_l. f_equal. lia.
Qed.

Lemma set_counter_same (c : HttpQuery) : set_counter c (counter c) = c.
Proof. destruct c; reflexivity. Qed.

Lemma uint64_modulus_pos : 0 < uint64_modulus.
Proof. reflexivity. Qed.

(** Any number of calls, wrap included. *)
Lemma pickServers_wrapped (k : nat) : forall c : HttpQuery,
  2 <= len (servers c) ->
  0 <= counter c < uint64_modulus ->
  pickServers k c
  = Ok (map (fun j => replica (servers c) (wrapped_index (len (servers c)) (counter c) j))
            (seq 1 k),
        set_counter c ((counter c + Z.of_nat k) mod uint64_modulus)).
Proof.
  induction k as [|k IH]; intros c Hn Hc.
  - cbn. rewrite Z.add_0_r, Z.mod_small by assumption.
    now rewrite set_counter_same.
  - cbn [pickServers]. rewrite pickServer_slow_path by assumption.
    rewrite IH; cbn [servers counter set_counter];
      [|assumption|apply Z.mod_pos_bound, uint64_modulus_pos].
    f_equal. f_equal.
    + change (seq 1 (S k)) with (1%nat :: seq 2 k).
      cbn [map]. f_equal.
      rewrite <- (seq_shift k 1), map_map.
      apply map_ext. intros j. now rewrite wrapped_index_shift.
    + unfold set_counter; cbn. f_equal.
      rewrite Zplus_mod_idemp_l. f_equal. lia.
Qed.

Lemma wrapped_index_small (n a : Z) (j : nat) :
  0 <= a -> a + Z.of_nat j < uint64_modulus ->
  wrapped_index n a j = rotating_index n a j.
Proof.
  intros Ha Hj. unfold wrapped_index, rotating_index.
  rewrite (Z.mod_small (a + Z.of_nat j) uint64_modulus); [reflexivity|lia].
Qed.

(** Before the counter wraps, the calls rotate through the list. *)
Lemma pickServers_rotating (k : nat) (c : HttpQuery) :
  2 <= len (servers c) ->
  0 <= counter c -> counter c + Z.of_nat k < uint64_modulus ->
  pickServers k c
  = Ok (map (fun j => replica (servers c) (rotating_index (len (servers c)) (counter c) j))
            (seq 1 k),
        set_counter c (counter c + Z.of_nat k)).
Proof.
  intros Hn Ha Hk.
  rewrite pickServers_wrapped by (assumption || lia).
  f_equal. f_equal.
  - apply map_ext_in. intros j Hj. apply in_seq in Hj.
    rewrite wrapped_index_small; [reflexivity|lia|lia].
  - rewrite Z.mod_small; [reflexivity|lia].
Qed.

(** One more call adds one to the count of replica [i] exactly when the
    call lands on [i]. *)
Lemma div_step (n x : Z) :
  0 < n -> (x + 1) / n = x / n + (if (x + 1) mod n =? 0 then 1 else 0).
Proof.
  intros Hn.
  pose proof (Z.div_mod (x + 1) n ltac:(lia)) as D.
  pose proof (Z.mod_pos_bound (x + 1) n Hn) as B.
  destruct (Z.eqb_spec ((x + 1) mod n) 0) as [E|E].
  - assert (Q : (x + 1) / n - 1 = x / n)
      by (apply Z.div_unique with (r := n - 1); lia).
    lia.
  - assert (Q : (x + 1) / n = x / n)
      by (apply Z.div_unique with (r := (x + 1) mod n - 1); lia).
    lia.
Qed.

Lemma lands_on (n a i : Z) (j : nat) :
  0 < n -> 0 <= i < n ->
  (rotating_index n a j = i <-> (a + Z.of_nat j - i) mod n = 0).
Proof.
  intros Hn Hi. unfold rotating_index. split; intros E.
  - pose proof (Z.div_mod (a + Z.of_nat j) n ltac:(lia)) as D.
    symmetry. apply Z.mod_unique with (q := (a + Z.of_nat j) / n); lia.
  - pose proof (Z.div_mod (a + Z.of_nat j - i) n ltac:(lia)) as D.
    symmetry. apply Z.mod_unique with (q := (a + Z.of_nat j - i) / n); lia.
Qed.

Lemma count_rotating (n a i : Z) (k : nat) :
  0 < n -> 0 <= i < n ->
  Z.of_nat (count_occ Z.eq_dec (map (rotating_index n a) (seq 1 k)) i)
  = (a + Z.of_nat k - i) / n - (a - i) / n.
Proof.
  intros Hn Hi. induction k as [|k IH].
  - cbn. rewrite Z.add_0_r. lia.
  - rewrite seq_S, map_app, count_occ_app. cbn [map count_occ Nat.add].
    rewrite Nat2Z.inj_add, IH.
    replace (a + Z.of_nat (S k) - i) with ((a + Z.of_nat k - i) + 1) by lia.
    rewrite div_step by assumption.
    destruct (Z.eq_dec (rotating_index n a (S k)) i) as [E|E].
    + apply lands_on in E; try assumption.
      replace (a + Z.of_nat k - i + 1) with (a + Z.of_nat (S k) - i) by lia.
      rewrite E. cbn. lia.
    + destruct (Z.eqb_spec ((a + Z.of_nat k - i + 1) mod n) 0) as [E'|E'].
      * exfalso. apply E. apply lands_on; try assumption.
        now replace (a + Z.of_nat (S k) - i) with (a + Z.of_nat k - i + 1) by lia.
      * cbn. lia.
Qed.

Lemma window_count (n x m : Z) :
  0 < n -> 0 <= m ->
  (x + m) / n - x / n = floor_div m n \/ (x + m) / n - x / n = ceil_div m n.
Proof.
  intros Hn Hm. unfold floor_div, ceil_div.
  pose proof (Z.div_mod x n ltac:(lia)) as Dx.
  pose proof (Z.mod_pos_bound x n Hn) as Bx.
  pose proof (Z.div_mod m n ltac:(lia)) as Dm.
  pose proof (Z.mod_pos_bound m n Hn) as Bm.
  destruct (Z_lt_ge_dec (x mod n + m mod n) n) as [L|G].
  - left.
    assert (Q : x / n + m / n = (x + m) / n)
      by (apply Z.div_unique with (r := x mod n + m mod n); lia).
    lia.
  - right.
    assert (Q : x / n + m / n + 1 = (x + m) / n)
      by (apply Z.div_unique with (r := x mod n + m mod n - n); lia).
    assert (C : m / n + 1 = (m + n - 1) / n)
      by (apply Z.div_unique with (r := m mod n - 1); lia).
    lia.
Qed.

End Picker.

(** C8.  A dispatcher whose group has exactly one replica returns that
    replica from every [pickServer] call and is left exactly as it was, the
    selection counter included, for any number [k] of calls. *)
Theorem pickServer_single_replica (c : HttpQuery) (s : string) (k : nat) :
  servers c = [s] ->
  pickServer c = Ok (s, c) /\
  exists c', pickServers k c = Ok (repeat s k, c') /\
             c' = c /\ counter c' = counter c.
Proof.
  intros E. split; [now apply pickServer_fast_path|].
  exists c. split; [|split; reflexivity].
  induction k as [|k IH]; [reflexivity|].
  cbn [pickServers repeat]. rewrite (pickServer_fast_path c E), IH. reflexivity.
Qed.

(** A one-replica group, five calls. *)
Lemma pickServer_single_replica_witness :
  servers Sim.one = ["http://a"] /\
  pickServer Sim.one = Ok ("http://a", Sim.one) /\
  exists c', pickServers 5 Sim.one = Ok (repeat "http://a" 5, c') /\
             c' = Sim.one /\ counter c' = counter Sim.one.
Proof.
  split; [reflexivity|].
  apply (pickServer_single_replica Sim.one (s := "http://a") 5). reflexivity.
Defined.

(** C6, as the code has it.  On a dispatcher with [n >= 2] replicas, [m]
    consecutive [pickServer] calls that do not take the 64-bit counter past
    [2^64 - 1] return the replicas at the positions [(a + j) mod n] for
    [j = 1 .. m], where [a] is the counter before the first of them: each
    position follows its predecessor in the list cyclically, call number
    [N] of a fresh dispatcher returns replica [N mod n], and every position
    is hit [floor (m / n)] or [ceil (m / n)] times. *)
Theorem pickServer_round_robin (c : HttpQuery) (m : nat) :
  2 <= len (servers c) ->
  0 <= counter c ->
  counter c + Z.of_nat m < uint64_modulus ->
  exists idxs picks c',
    pickServers m c = Ok (picks, c') /\
    counter c' = counter c + Z.of_nat m /\
    picks = map (replica (servers c)) idxs /\
    idxs = map (rotating_index (len (servers c)) (counter c)) (seq 1 m) /\
    (forall j, (S j < m)%nat ->
       nth (S j) idxs 0 = (nth j idxs 0 + 1) mod len (servers c)) /\
    (counter c = 0 ->
     forall N, (1 <= N <= m)%nat ->
       nth_error picks (N - 1)
       = Some (replica (servers c) (Z.of_nat N mod len (servers c)))) /\
    (forall i, 0 <= i < len (servers c) ->
       Z.of_nat (count_occ Z.eq_dec idxs i) = floor_div (Z.of_nat m) (len (servers c)) \/
       Z.of_nat (count_occ Z.eq_dec idxs i) = ceil_div (Z.of_nat m) (len (servers c))).
Proof.
  intros Hn Ha Hm.
  set (n := len (servers c)) in *. set (a := counter c) in *.
  assert (Hnth : forall j, (j < m)%nat ->
            nth j (map (rotating_index n a) (seq 1 m)) 0 = rotating_index n a (S j)).
  { intros j Hj.
    rewrite (nth_indep _ 0 (rotating_index n a 0)) by now rewrite length_map, length_seq.
    rewrite map_nth, seq_nth by assumption. reflexivity. }
  exists (map (rotating_index n a) (seq 1 m)).
  exists (map (replica (servers c)) (map (rotating_index n a) (seq 1 m))).
  exists (set_counter c (a + Z.of_nat m)).
  repeat split.
  - rewrite pickServers_rotating by assumption. now rewrite map_map.
  - intros j Hj. rewrite !Hnth by lia. unfold rotating_index.
    rewrite Zplus_mod_idemp_l. f_equal. lia.
  - intros Ha0 N HN.
    rewrite nth_error_map, nth_error_map.
    assert (HNl : (N - 1 < List.length (seq 1 m))%nat) by (rewrite length_seq; lia).
    rewrite (nth_error_nth' _ 0%nat HNl), seq_nth by lia. cbn [option_map].
    unfold rotating_index. rewrite Ha0. do 3 f_equal. lia.
  - intros i Hi. rewrite count_rotating by lia.
    replace (a + Z.of_nat m - i) with ((a - i) + Z.of_nat m) by lia.
    apply window_count; lia.
Qed.

(** Three replicas, the first seven calls of a fresh dispatcher. *)
Lemma pickServer_round_robin_witness :
  2 <= len (servers Sim.three) /\
  0 <= counter Sim.three /\
  counter Sim.three + Z.of_nat 7 < uint64_modulus /\
  exists picks c',
    pickServers 7 Sim.three = Ok (picks, c') /\
    picks = ["http://b"; "http://c"; "http://a"; "http://b"; "http://c"; "http://a"; "http://b"].
Proof.
  assert (H1 : 2 <= len (servers Sim.three)) by (vm_compute; discriminate).
  assert (H2 : 0 <= counter Sim.three) by (vm_compute; discriminate).
  assert (H3 : counter Sim.three + Z.of_nat 7 < uint64_modulus) by reflexivity.
  repeat split; try assumption.
  destruct (pickServer_round_robin Sim.three 7 H1 H2 H3)
    as (idxs & picks & c' & Hrun & _ & Hpicks & Hidxs & _).
  exists picks, c'. split; [exact Hrun|].
  rewrite Hpicks, Hidxs. reflexivity.
Defined.

Example pickServers_three_7 :
  pickServers 7 Sim.three
  = Ok (["http://b"; "http://c"; "http://a"; "http://b"; "http://c"; "http://a"; "http://b"],
        set_counter Sim.three 7).
Proof. reflexivity. Qed.

(** The step over the wrap: from a counter of [2^64 - 2] the next two calls
    both return the first of three replicas. *)
Example pickServers_over_the_wrap :
  pickServers 2 (set_counter Sim.three (2 ^ 64 - 2))
  = Ok (["http://a"; "http://a"], set_counter Sim.three 0).
Proof. reflexivity. Qed.

(** C6 as stated fails once the counter wraps: three does not divide
    [2^64], so call number [2^64] of a fresh dispatcher with three replicas
    returns the first replica, where [2^64 mod 3 = 1] names the second. *)
Lemma pickServer_round_robin_counterexample :
  exists picks c',
    pickServers (Z.to_nat (2 ^ 64)) Sim.three = Ok (picks, c') /\
    nth_error picks (Z.to_nat (2 ^ 64) - 1) = Some "http://a" /\
    replica (servers Sim.three) (2 ^ 64 mod len (servers Sim.three)) = "http://b".
Proof.
  remember (Z.to_nat (2 ^ 64)) as N eqn:HN.
  assert (HZ : Z.of_nat N = uint64_modulus)
    by (subst N; rewrite Z2Nat.id; [reflexivity|discriminate]).
  assert (Hpos : (0 < N)%nat) by (unfold uint64_modulus in HZ; lia).
  eexists. eexists. split.
  - apply pickServers_wrapped; [vm_compute; discriminate|split; [discriminate|reflexivity]].
  - split; [|reflexivity].
    rewrite nth_error_map.
    assert (HNl : (N - 1 < List.length (seq 1 N))%nat) by (rewrite length_seq; lia).
    rewrite (nth_error_nth' _ 0%nat HNl), seq_nth by lia. cbn [option_map].
    replace (1 + (N - 1))%nat with N by lia.
    unfold wrapped_index. rewrite HZ. reflexivity.
Qed.

(* ================================================================== *)
(** * The request executor: proofs *)
(* ================================================================== *)

Section Executor.

Context {W : Type} (env : Env W).

Lemma tries_app (l1 l2 : list event) : tries (l1 ++ l2) = (tries l1 + tries l2)%nat.
Proof. unfold tries. now rewrite filter_app, length_app. Qed.

Lemma round_trips_app (l1 l2 : list event) :
  round_trips (l1 ++ l2) = (round_trips l1 + round_trips l2)%nat.
Proof. unfold round_trips. now rewrite filter_app, length_app. Qed.

Lemma leaves_app (l1 l2 : list event) : leaves (l1 ++ l2) = leaves l1 ++ leaves l2.
Proof.
  induction l1 as [|ev l1 IH]; [reflexivity|].
  destruct ev; cbn; rewrite IH; reflexivity.
Qed.

Lemma reader_of_body (body : option bytes) :
  match body with Some b => Some b | None => None end = body.
Proof. now destruct body. Qed.

(** The picker only ever touches the counter. *)
Lemma pickServer_frame (c c' : HttpQuery) (server : string) :
  pickServer c = Ok (server, c') ->
  groupName c' = groupName c /\ servers c' = servers c /\
  maxTries c' = maxTries c /\ encoding c' = encoding c.
Proof.
  unfold pickServer. intros H.
  destruct (len (servers c) =? 1).
  - destruct (index (servers c) 0); inversion H; subst; auto.
  - destruct (len (servers c) =? 0); [discriminate|].
    destruct (index (servers c) _); inversion H; subst; auto.
Qed.

Lemma pickServer_total (c : HttpQuery) :
  servers c <> [] -> exists server c', pickServer c = Ok (server, c').
Proof.
  intros Hne.
  destruct (servers c) as [|s0 [|s1 rest]] eqn:E; [congruence| |].
  - exists s0, c. now apply pickServer_fast_path.
  - eexists. eexists. apply pickServer_slow_path.
    rewrite E. unfold len. cbn [List.length]. lia.
Qed.

(** The URL does not parse: the parse error comes back. *)
Lemma doRequest_parse_error s uri body server c' err :
  pickServer (self s) = Ok (server, c') ->
  url_Parse env (String.append server uri) = inl err ->
  doRequest env uri body s
  = Returned (None, Some err)
      {| self := c'; world := world s;
         log := log s ++ [EvParse (String.append server uri)] |}.
Proof.
  intros Hp Hu. unfold doRequest. run_monad. cbn.
  step_with Hp. step_with Hu. reflexivity.
Qed.

(** The request cannot be built: [req] is nil and setting the header on it
    panics; the check of [err] that follows is never reached. *)
Lemma doRequest_request_error s uri body server c' u err :
  pickServer (self s) = Ok (server, c') ->
  url_Parse env (String.append server uri) = inr u ->
  http_NewRequest env "GET" (URL_String u) body = inl err ->
  doRequest env uri body s
  = Panicked "invalid memory address or nil pointer dereference"
      {| self := c'; world := world s;
         log := log s ++ [EvParse (String.append server uri);
                          EvNewRequest "GET" (URL_String u)] |}.
Proof.
  intros Hp Hu Hr. unfold doRequest. run_monad. cbn.
  step_with Hp. step_with Hu. rewrite reader_of_body. step_with Hr.
  tidy_log.
Qed.

(** The limiter refuses. *)
Lemma doRequest_enter_error s uri body server c' u r w1 err :
  pickServer (self s) = Ok (server, c') ->
  url_Parse env (String.append server uri) = inr u ->
  http_NewRequest env "GET" (URL_String u) body = inr r ->
  limiter_Enter env (world s) (groupName (self s)) = (w1, Some err) ->
  doRequest env uri body s
  = Returned (None, Some err)
      {| self := c'; world := w1;
         log := log s ++ preamble (self s) server uri u false |}.
Proof.
  intros Hp Hu Hr He. unfold doRequest. run_monad. cbn.
  step_with Hp. step_with Hu. rewrite reader_of_body. step_with Hr.
  step_with He. tidy_log.
Qed.

(** The round trip fails in the transport. *)
Lemma doRequest_transport_error s uri body server c' u req w1 w2 err :
  GetsSlot env uri body s server c' u req w1 ->
  client_Do env w1 req = (w2, inl err) ->
  doRequest env uri body s
  = Returned (None, Some err)
      {| self := c'; world := limiter_Leave env w2 server;
         log := log s ++ preamble (self s) server uri u true
                      ++ [EvDo (RequestURL req); EvLeave server] |}.
Proof.
  intros (r & Hp & Hu & Hr & Hreq & He) Hd. subst req. unfold prepared in Hd |- *.
  unfold doRequest. run_monad. cbn.
  step_with Hp. step_with Hu. rewrite reader_of_body. step_with Hr.
  step_with He. step_with Hd. tidy_log.
Qed.

(** The round trip completes with a response. *)
Lemma doRequest_response s uri body server c' u req w1 w2 resp :
  GetsSlot env uri body s server c' u req w1 ->
  client_Do env w1 req = (w2, inr resp) ->
  doRequest env uri body s
  = let sent := {| self := c'; world := limiter_Leave env w2 server;
                   log := log s ++ preamble (self s) server uri u true
                                ++ [EvDo (RequestURL req); EvLeave server] |} in
    defer (call_Body_Close env (Body resp))
      (if StatusCode resp =? StatusNotFound then
         ret (None, Some ErrNotFound)
       else if negb (StatusCode resp =? StatusOK) then
         ret (None, Some (ErrFailedToFetch (groupName (self s)) (StatusCode resp)))
       else
         bind (call_ioutil_ReadAll env (Body resp))
           (fun x => match x with
                     | (data, Some e) => ret (None, Some e)
                     | (data, None) => ret (Some {| Server := server; Response := data |}, None)
                     end))
      sent.
Proof.
  intros (r & Hp & Hu & Hr & Hreq & He) Hd. subst req. unfold prepared in Hd |- *.
  unfold doRequest. run_monad. cbn.
  step_with Hp. step_with Hu. rewrite reader_of_body. step_with Hr.
  step_with He. step_with Hd. rewrite <- !app_assoc. cbn.
  destruct (StatusCode resp =? StatusNotFound); [reflexivity|].
  destruct (StatusCode resp =? StatusOK); cbn; [|reflexivity].
  match goal with
  | |- context [ioutil_ReadAll env ?w ?b] =>
      destruct (ioutil_ReadAll env w b) as [w4 [data [e|]]]; reflexivity
  end.
Qed.

(** C4.  Once the round trip has completed with a response, the outcome of
    [doRequest] is decided by the status: 404 gives the dedicated
    [ErrNotFound]; any other status than 200 gives the fetch-failed error
    with the group name and the status code; 200 with a failing body read
    gives the read error; 200 with the body read gives the [ServerResponse]
    with the picked replica and the bytes read.  [ErrNotFound] is none of
    the fetch-failed errors. *)
Theorem doRequest_classifies s uri body server c' u req w1 w2 resp :
  GetsSlot env uri body s server c' u req w1 ->
  client_Do env w1 req = (w2, inr resp) ->
  let w3 := limiter_Leave env w2 server in
  let sent := log s ++ preamble (self s) server uri u true
                    ++ [EvDo (RequestURL req); EvLeave server] in
  let closed (w : W) (l : list event) :=
    {| self := c'; world := Body_Close env w (Body resp);
       log := l ++ [EvClose (Body resp)] |} in
  (StatusCode resp = StatusNotFound ->
     doRequest env uri body s = Returned (None, Some ErrNotFound) (closed w3 sent)) /\
  (StatusCode resp <> StatusNotFound -> StatusCode resp <> StatusOK ->
     doRequest env uri body s
     = Returned (None, Some (ErrFailedToFetch (groupName (self s)) (StatusCode resp)))
         (closed w3 sent)) /\
  (StatusCode resp = StatusOK ->
     forall w4 data err,
       ioutil_ReadAll env w3 (Body resp) = (w4, (data, Some err)) ->
       doRequest env uri body s
       = Returned (None, Some err) (closed w4 (sent ++ [EvReadAll (Body resp)]))) /\
  (StatusCode resp = StatusOK ->
     forall w4 data,
       ioutil_ReadAll env w3 (Body resp) = (w4, (data, None)) ->
       doRequest env uri body s
       = Returned (Some {| Server := server; Response := data |}, None)
           (closed w4 (sent ++ [EvReadAll (Body resp)]))) /\
  (forall group code, ErrNotFound <> ErrFailedToFetch group code).
Proof.
  intros Hslot Hdo w3 sent closed.
  pose proof (doRequest_response Hslot Hdo) as E. cbv zeta in E.
  repeat split.
  - intros H404. rewrite E, H404. reflexivity.
  - intros Hn404 Hn200. rewrite E.
    destruct (Z.eqb_spec (StatusCode resp) StatusNotFound); [contradiction|].
    destruct (Z.eqb_spec (StatusCode resp) StatusOK); [contradiction|].
    reflexivity.
  - intros H200 w4 data err Hread. rewrite E, H200. cbn.
    run_monad. cbn. fold w3. rewrite Hread. reflexivity.
  - intros H200 w4 data Hread. rewrite E, H200. cbn.
    run_monad. cbn. fold w3. rewrite Hread. reflexivity.
  - discriminate.
Qed.

(** C1, as the code has it.  A try that is granted a slot under the group
    name makes the round trip and then calls [Leave] once, at once and
    before any body read, on the success and on the failure path alike, but
    under the address of the picked replica: when that address is not the
    group name, no [Leave] is made for the group name the slot was acquired
    under. *)
Theorem doRequest_leaves_under_server s uri body server c' u req w1 :
  GetsSlot env uri body s server c' u req w1 ->
  groupName (self s) <> server ->
  exists res s' after,
    doRequest env uri body s = Returned res s' /\
    log s' = log s ++ preamble (self s) server uri u true
                   ++ [EvDo (RequestURL req); EvLeave server] ++ after /\
    leaves after = [] /\
    leaves (preamble (self s) server uri u true
              ++ [EvDo (RequestURL req); EvLeave server] ++ after) = [server] /\
    ~ In (groupName (self s))
         (leaves (preamble (self s) server uri u true
                    ++ [EvDo (RequestURL req); EvLeave server] ++ after)).
Proof.
  intros Hslot Hne.
  assert (Hl : forall after, leaves after = [] ->
            leaves (preamble (self s) server uri u true
                      ++ [EvDo (RequestURL req); EvLeave server] ++ after) = [server]).
  { intros after Ha. cbn. now rewrite Ha. }
  assert (Hfin : forall res s' after,
            doRequest env uri body s = Returned res s' ->
            log s' = log s ++ preamble (self s) server uri u true
                           ++ [EvDo (RequestURL req); EvLeave server] ++ after ->
            leaves after = [] ->
            exists res s' after,
              doRequest env uri body s = Returned res s' /\
              log s' = log s ++ preamble (self s) server uri u true
                             ++ [EvDo (RequestURL req); EvLeave server] ++ after /\
              leaves after = [] /\
              leaves (preamble (self s) server uri u true
                        ++ [EvDo (RequestURL req); EvLeave server] ++ after) = [server] /\
              ~ In (groupName (self s))
                   (leaves (preamble (self s) server uri u true
                              ++ [EvDo (RequestURL req); EvLeave server] ++ after))).
  { intros res s' after E L Ha. exists res, s', after.
    repeat split; try assumption; [now apply Hl|].
    rewrite (Hl after Ha). intros [H|[]]. now apply Hne. }
  destruct (client_Do env w1 req) as [w2 [err|resp]] eqn:Hdo.
  - eapply Hfin with (after := []).
    + apply (doRequest_transport_error Hslot Hdo).
    + reflexivity.
    + reflexivity.
  - pose proof (doRequest_response Hslot Hdo) as E. cbv zeta in E.
    destruct (StatusCode resp =? StatusNotFound).
    { eapply Hfin with (after := [EvClose (Body resp)]);
        [rewrite E; reflexivity|tidy_log|reflexivity]. }
    destruct (StatusCode resp =? StatusOK); cbn [negb] in E.
    2:{ eapply Hfin with (after := [EvClose (Body resp)]);
        [rewrite E; reflexivity|tidy_log|reflexivity]. }
    unfold defer, bind, call_ioutil_ReadAll, call_Body_Close, ret in E.
    cbn [world log self] in E.
    destruct (ioutil_ReadAll env (limiter_Leave env w2 server) (Body resp))
      as [w4 [data [e|]]]; cbn [world log self] in E;
      (eapply Hfin with (after := [EvReadAll (Body resp); EvClose (Body resp)]);
        [rewrite E; reflexivity|tidy_log|reflexivity]).
Qed.

(** C7.  When [Enter] fails, [doRequest] returns the limiter's error at
    once: the world is as [Enter] left it, the log ends with the refused
    [Enter], and the call has made no round trip. *)
Theorem doRequest_no_slot_no_call s uri body server c' u r w1 err :
  pickServer (self s) = Ok (server, c') ->
  url_Parse env (String.append server uri) = inr u ->
  http_NewRequest env "GET" (URL_String u) body = inr r ->
  limiter_Enter env (world s) (groupName (self s)) = (w1, Some err) ->
  exists s',
    doRequest env uri body s = Returned (None, Some err) s' /\
    world s' = w1 /\
    log s' = log s ++ preamble (self s) server uri u false /\
    round_trips (log s') = round_trips (log s).
Proof.
  intros Hp Hu Hr He. eexists. split.
  - apply (doRequest_enter_error _ _ _ Hp Hu Hr He).
  - cbn [world log]. repeat split.
    rewrite round_trips_app. cbn. lia.
Qed.

(** Whatever [doRequest] returns: the dispatcher is as the picker left it,
    the call has logged exactly one try, and exactly one of the two results
    is nil. *)
Lemma doRequest_returned s uri body res err s' :
  doRequest env uri body s = Returned (res, err) s' ->
  (exists server, pickServer (self s) = Ok (server, self s')) /\
  (exists evs, log s' = log s ++ evs /\ tries evs = 1%nat) /\
  ((res = None /\ err <> None) \/ (res <> None /\ err = None)).
Proof.
  unfold doRequest. run_monad. cbn.
  destruct (pickServer (self s)) as [[server c1]|m]; cbn; [|discriminate].
  destruct (url_Parse env _) as [e|u]; cbn; [returned_leaf|].
  rewrite reader_of_body.
  destruct (http_NewRequest env _ _ _) as [e|r]; cbn; [discriminate|].
  destruct (limiter_Enter env _ _) as [w1 [e|]]; cbn; [returned_leaf|].
  destruct (client_Do env _ _) as [w2 [e|resp]]; cbn; [returned_leaf|].
  destruct (StatusCode resp =? StatusNotFound); cbn; [returned_leaf|].
  destruct (StatusCode resp =? StatusOK); cbn; [|returned_leaf].
  destruct (ioutil_ReadAll env _ _) as [w4 [data [e|]]]; cbn; returned_leaf.
Qed.

(** With a replica to pick and a request that builds, [doRequest] returns. *)
Lemma doRequest_total s uri body :
  servers (self s) <> [] -> RequestsBuild env ->
  exists r s', doRequest env uri body s = Returned r s'.
Proof.
  intros Hne Hb.
  destruct (pickServer_total (self s) Hne) as (server & c1 & Hp).
  unfold doRequest. run_monad. cbn. rewrite Hp. cbn.
  destruct (url_Parse env (String.append server uri)) as [e|u] eqn:Hu; cbn; [eauto|].
  rewrite reader_of_body.
  destruct (Hb _ u body Hu) as [r Hr]. rewrite Hr. cbn.
  destruct (limiter_Enter env _ _) as [w1 [e|]]; cbn; [eauto|].
  destruct (client_Do env _ _) as [w2 [e|resp]]; cbn; [eauto|].
  destruct (StatusCode resp =? StatusNotFound); cbn; [eauto|].
  destruct (StatusCode resp =? StatusOK); cbn; [|eauto].
  destruct (ioutil_ReadAll env _ _) as [w4 [data [e|]]]; cbn; eauto.
Qed.

End Executor.

(* ================================================================== *)
(** * The retry/failover controller: proofs *)
(* ================================================================== *)

Section Controller.

Context {W : Type} (env : Env W).

Lemma effectiveMaxTries_max (c : HttpQuery) :
  effectiveMaxTries c = Z.max (maxTries c) (len (servers c)).
Proof.
  unfold effectiveMaxTries. rewrite Z.gtb_ltb.
  destruct (Z.ltb_spec (maxTries c) (len (servers c))); lia.
Qed.

Lemma budget_positive (c : HttpQuery) :
  servers c <> [] -> exists n, Z.to_nat (effectiveMaxTries c) = S n.
Proof.
  intros Hne. rewrite effectiveMaxTries_max.
  assert (1 <= len (servers c)).
  { unfold len. destruct (servers c); [congruence|cbn [List.length]; lia]. }
  exists (Z.to_nat (Z.max (maxTries c) (len (servers c))) - 1)%nat. lia.
Qed.

(** One turn of the loop. *)
Lemma tryLoop_S (n : nat) uri body (e : Errors) (s : State W) :
  tryLoop env (S n) uri body e s
  = match doRequest env uri body s with
    | Returned (res, Some err) s1 =>
        match ctx_Err env (world s1) with
        | Some _ => Returned (None, Some (e ++ [err])) s1
        | None => tryLoop env n uri body (e ++ [err]) s1
        end
    | Returned (res, None) s1 => Returned (res, None) s1
    | Panicked msg s1 => Panicked msg s1
    end.
Proof.
  cbn [tryLoop]. unfold bind, call_ctx_Err, ret, Errors_Add.
  destruct (doRequest env uri body s) as [[res [err|]] s1|msg s1]; try reflexivity.
  destruct (ctx_Err env (world s1)); reflexivity.
Qed.

Lemma DoQuery_unfold uri body (s : State W) :
  DoQuery env uri body s
  = tryLoop env (Z.to_nat (effectiveMaxTries (self s))) uri body [] s.
Proof. reflexivity. Qed.

(** A try leaves the replica list and the configured tries alone. *)
Lemma doRequest_frame s uri body r s' :
  doRequest env uri body s = Returned r s' ->
  servers (self s') = servers (self s) /\ maxTries (self s') = maxTries (self s).
Proof.
  destruct r as [res err]. intros H.
  destruct (doRequest_returned _ _ _ _ H) as ((server & Hp) & _ & _).
  destruct (pickServer_frame _ Hp) as (_ & Hs & Hm & _). now split.
Qed.

Lemma FailedTries_facts uri body k s errs s' :
  FailedTries env uri body k s errs s' ->
  servers (self s') = servers (self s) /\
  maxTries (self s') = maxTries (self s) /\
  List.length errs = k /\
  tries (log s') = (tries (log s) + k)%nat.
Proof.
  induction 1 as [s|k s res err s1 errs s2 Hdo Hctx Hrest IH].
  - repeat split. lia.
  - destruct IH as (Hs & Hm & Hl & Ht).
    destruct (doRequest_frame _ _ _ Hdo) as (Hs1 & Hm1).
    destruct (doRequest_returned _ _ _ _ Hdo) as (_ & (evs & Hlog & Hone) & _).
    repeat split; [congruence|congruence|cbn; lia|].
    rewrite Ht, Hlog, tries_app, Hone. lia.
Qed.

(** After [k] failed tries the loop stands where it would stand had it been
    started there with [k] turns less and the [k] errors in the aggregate. *)
Lemma tryLoop_after_failures uri body k s errs s1 :
  FailedTries env uri body k s errs s1 ->
  forall n e,
    tryLoop env (k + n) uri body e s = tryLoop env n uri body (e ++ errs) s1.
Proof.
  induction 1 as [s|k s res err s1 errs s2 Hdo Hctx Hrest IH]; intros n e.
  - now rewrite app_nil_r.
  - cbn [Nat.add]. rewrite tryLoop_S, Hdo, Hctx, IH, <- app_assoc. reflexivity.
Qed.

Lemma tryLoop_one_slot (n : nat) uri body : forall e s r s',
  tryLoop env n uri body e s = Returned r s' -> one_slot r.
Proof.
  induction n as [|n IH]; intros e s r s'.
  - cbn. unfold ret, Errors_Add. intros H. inversion H; subst.
    destruct e; exact I.
  - rewrite tryLoop_S.
    destruct (doRequest env uri body s) as [[res [err|]] s1|msg s1] eqn:Hdo;
      [| |discriminate].
    + destruct (ctx_Err env (world s1)).
      * intros H. inversion H; subst. destruct e; exact I.
      * apply IH.
    + intros H. inversion H; subst.
      destruct (doRequest_returned _ _ _ _ Hdo) as (_ & _ & [[_ Hn]|[Hn _]]);
        [congruence|].
      destruct res; [exact I|congruence].
Qed.

Lemma tryLoop_total (n : nat) uri body :
  RequestsBuild env ->
  forall e s, servers (self s) <> [] ->
    exists r s', tryLoop env n uri body e s = Returned r s'.
Proof.
  intros Hb. induction n as [|n IH]; intros e s Hne.
  - cbn. unfold ret. eauto.
  - rewrite tryLoop_S.
    destruct (doRequest_total s uri body Hne Hb) as (r & s1 & Hdo). rewrite Hdo.
    destruct r as [res [err|]]; [|eauto].
    destruct (ctx_Err env (world s1)); [eauto|].
    apply IH. destruct (doRequest_frame _ _ _ Hdo) as (Hs & _). congruence.
Qed.

(** Under a cancelled context, with collaborators that honour it, a try
    fails: in the URL parse, at the limiter, or in the round trip the client
    refuses; and the context is still cancelled afterwards. *)
Lemma doRequest_cancelled s uri body :
  HonoursCancellation env -> RequestsBuild env ->
  servers (self s) <> [] ->
  ctx_Err env (world s) <> None ->
  exists err s1,
    doRequest env uri body s = Returned (None, Some err) s1 /\
    ctx_Err env (world s1) <> None /\
    exists server c',
      pickServer (self s) = Ok (server, c') /\
      (url_Parse env (String.append server uri) = inl err \/
       snd (limiter_Enter env (world s) (groupName (self s))) = Some err \/
       exists req,
         snd (client_Do env (fst (limiter_Enter env (world s) (groupName (self s)))) req)
         = inl err).
Proof.
  intros Hc Hb Hne Hcan.
  destruct (pickServer_total (self s) Hne) as (server & c1 & Hp).
  destruct (url_Parse env (String.append server uri)) as [e|u] eqn:Hu.
  { exists e. eexists. split; [apply (doRequest_parse_error _ _ _ _ Hp Hu)|].
    split; [exact Hcan|]. exists server, c1. auto. }
  destruct (Hb _ u body Hu) as [r Hr].
  pose proof (Enter_keeps_cancelled Hc (world s) (groupName (self s)) Hcan) as Hcan1.
  destruct (limiter_Enter env (world s) (groupName (self s))) as [w1 [e|]] eqn:He.
  { exists e. eexists. split; [apply (doRequest_enter_error _ _ _ _ Hp Hu Hr He)|].
    split; [exact Hcan1|]. exists server, c1. auto. }
  cbn [fst] in Hcan1.
  assert (Hslot : GetsSlot env uri body s server c1 u (prepared env (self s) r) w1)
    by (exists r; auto).
  destruct (Do_refuses_cancelled Hc w1 (prepared env (self s) r) Hcan1) as [e Hrefuse].
  pose proof (Do_keeps_cancelled Hc w1 (prepared env (self s) r) Hcan1) as Hcan2.
  destruct (client_Do env w1 (prepared env (self s) r)) as [w2 o] eqn:Hdo.
  cbn [fst snd] in *. subst o.
  exists e. eexists. split; [apply (doRequest_transport_error Hslot Hdo)|].
  split; [apply (Leave_keeps_cancelled Hc), Hcan2|].
  exists server, c1. split; [exact Hp|]. right. right.
  exists (prepared env (self s) r). cbn [fst]. now rewrite Hdo.
Qed.

End Controller.

Section Dispatch.

Context {W : Type} (env : Env W).

(** C2.  With a non-empty replica list the try budget of [DoQuery] is
    [max(maxTries, len(servers))]; when that many tries in a row fail and
    the context is not cancelled after any of them, [DoQuery] makes exactly
    those tries and returns a nil response with the aggregate of their
    errors, in order, followed by [ErrMaxTriesExceeded]. *)
Theorem DoQuery_exhausts_budget s uri body errs s' :
  servers (self s) <> [] ->
  FailedTries env uri body (Z.to_nat (effectiveMaxTries (self s))) s errs s' ->
  effectiveMaxTries (self s) = Z.max (maxTries (self s)) (len (servers (self s))) /\
  DoQuery env uri body s = Returned (None, Some (errs ++ [ErrMaxTriesExceeded])) s' /\
  tries (log s') = (tries (log s) + Z.to_nat (effectiveMaxTries (self s)))%nat /\
  len errs = effectiveMaxTries (self s) /\
  len (errs ++ [ErrMaxTriesExceeded]) = effectiveMaxTries (self s) + 1.
Proof.
  intros Hne Hfail.
  destruct (FailedTries_facts Hfail) as (_ & _ & Hlen & Htries).
  destruct (budget_positive (self s) Hne) as [n Hn].
  split; [apply effectiveMaxTries_max|].
  split.
  - rewrite DoQuery_unfold.
    rewrite <- (Nat.add_0_r (Z.to_nat (effectiveMaxTries (self s)))).
    rewrite (tryLoop_after_failures Hfail). reflexivity.
  - split; [exact Htries|].
    unfold len. rewrite length_app, Hlen. cbn [List.length]. lia.
Qed.

(** C3, as the code has it.  When a try fails and the context is found
    cancelled right after its error has been appended, [DoQuery] returns
    there and then: a nil response and the aggregate of the errors so far,
    the last being that try's, with nothing after it, whatever is left of
    the try budget.  The error of the context is looked at, not appended:
    the aggregate speaks of the cancellation only if a try failed of it. *)
Theorem DoQuery_stops_on_cancel s uri body k errs s1 res err s2 cerr :
  FailedTries env uri body k s errs s1 ->
  (k < Z.to_nat (effectiveMaxTries (self s)))%nat ->
  doRequest env uri body s1 = Returned (res, Some err) s2 ->
  ctx_Err env (world s2) = Some cerr ->
  DoQuery env uri body s = Returned (None, Some (errs ++ [err])) s2 /\
  tries (log s2) = (tries (log s) + k + 1)%nat /\
  List.length (errs ++ [err]) = (k + 1)%nat.
Proof.
  intros Hfail Hk Hdo Hctx.
  destruct (FailedTries_facts Hfail) as (_ & _ & Hlen & Htries).
  destruct (doRequest_returned _ _ _ _ Hdo) as (_ & (evs & Hlog & Hone) & _).
  split; [|split].
  - rewrite DoQuery_unfold.
    replace (Z.to_nat (effectiveMaxTries (self s)))
      with (k + S (Z.to_nat (effectiveMaxTries (self s)) - k - 1))%nat by lia.
    rewrite (tryLoop_after_failures Hfail), tryLoop_S, Hdo, Hctx. reflexivity.
  - rewrite Hlog, tries_app, Hone, Htries. lia.
  - rewrite length_app, Hlen. reflexivity.
Qed.

(** C5.  Whatever [DoQuery] returns has exactly one slot populated: a
    response with a nil aggregate, or a nil response with a non-nil,
    non-empty aggregate.  It does return whenever there is a replica to pick
    and requests build.  And when a try succeeds after [k] failed ones, its
    response is what comes back, with a nil aggregate. *)
Theorem DoQuery_one_slot uri body :
  (forall s r s', DoQuery env uri body s = Returned r s' -> one_slot r) /\
  (forall s, servers (self s) <> [] -> RequestsBuild env ->
     exists r s', DoQuery env uri body s = Returned r s' /\ one_slot r) /\
  (forall s k errs s1 resp s2,
     FailedTries env uri body k s errs s1 ->
     (k < Z.to_nat (effectiveMaxTries (self s)))%nat ->
     doRequest env uri body s1 = Returned (Some resp, None) s2 ->
     DoQuery env uri body s = Returned (Some resp, None) s2).
Proof.
  split; [|split].
  - intros s r s'. rewrite DoQuery_unfold. apply tryLoop_one_slot.
  - intros s Hne Hb.
    destruct (tryLoop_total (Z.to_nat (effectiveMaxTries (self s))) uri body Hb [] s Hne)
      as (r & s' & H).
    exists r, s'. split; [exact H|]. eapply tryLoop_one_slot, H.
  - intros s k errs s1 resp s2 Hfail Hk Hdo.
    rewrite DoQuery_unfold.
    replace (Z.to_nat (effectiveMaxTries (self s)))
      with (k + S (Z.to_nat (effectiveMaxTries (self s)) - k - 1))%nat by lia.
    rewrite (tryLoop_after_failures Hfail), tryLoop_S, Hdo. reflexivity.
Qed.

(** C10, as the code has it.  When the context is already cancelled as
    [DoQuery] is entered, the limiter and the client honour that and the
    request builds, [DoQuery] still makes one try and only one; the error of
    that try is the only entry of the aggregate, the response is nil and no
    [ErrMaxTriesExceeded] is appended.  That error is the limiter's or the
    client's answer to the cancelled context, or the error of [url.Parse]
    when the URL of the try does not parse. *)
Theorem DoQuery_cancelled_at_entry s uri body :
  HonoursCancellation env ->
  RequestsBuild env ->
  servers (self s) <> [] ->
  ctx_Err env (world s) <> None ->
  exists err s1,
    DoQuery env uri body s = Returned (None, Some [err]) s1 /\
    doRequest env uri body s = Returned (None, Some err) s1 /\
    tries (log s1) = (tries (log s) + 1)%nat /\
    exists server c',
      pickServer (self s) = Ok (server, c') /\
      (url_Parse env (String.append server uri) = inl err \/
       snd (limiter_Enter env (world s) (groupName (self s))) = Some err \/
       exists req,
         snd (client_Do env (fst (limiter_Enter env (world s) (groupName (self s)))) req)
         = inl err).
Proof.
  intros Hc Hb Hne Hcan.
  destruct (doRequest_cancelled s uri body Hc Hb Hne Hcan)
    as (err & s1 & Hdo & Hcan1 & Hwhy).
  destruct (doRequest_returned _ _ _ _ Hdo) as (_ & (evs & Hlog & Hone) & _).
  destruct (budget_positive (self s) Hne) as [n Hn].
  exists err, s1. repeat split; [|exact Hdo| |exact Hwhy].
  - rewrite DoQuery_unfold, Hn, tryLoop_S, Hdo.
    destruct (ctx_Err env (world s1)); [reflexivity|congruence].
  - rewrite Hlog, tries_app, Hone. reflexivity.
Qed.

End Dispatch.

(* ================================================================== *)
(** * The properties at work in the small world *)
(* ================================================================== *)

Section Scenarios.

Import Sim.

Lemma cancelled_tick (cfg : Config) (w : World) :
  cancelled cfg w = true -> cancelled cfg (tick w) = true.
Proof.
  unfold cancelled, tick. cbn. destruct (deadline cfg); [|discriminate].
  intros H. apply Nat.leb_le in H. apply Nat.leb_le. lia.
Qed.

Lemma ctx_Err_cancelled (cfg : Config) (w : World) :
  ctx_Err (env cfg) w <> None <-> cancelled cfg w = true.
Proof. cbn. destruct (cancelled cfg w); split; congruence. Qed.

(** The small world honours cancellation. *)
Lemma Sim_honours_cancellation (cfg : Config) : HonoursCancellation (env cfg).
Proof.
  constructor.
  - intros w name H. apply ctx_Err_cancelled in H. apply ctx_Err_cancelled.
    cbn. unfold enter. destruct (capacity cfg); [rewrite H|]; cbn;
      now apply cancelled_tick.
  - intros w name H. apply ctx_Err_cancelled in H. apply ctx_Err_cancelled.
    exact H.
  - intros w req H. apply ctx_Err_cancelled in H. apply ctx_Err_cancelled.
    cbn. now apply cancelled_tick.
  - intros w req H. apply ctx_Err_cancelled in H.
    cbn. rewrite H. now exists ctxError.
Qed.

(** What the small world parses it can parse again. *)
Lemma parse_accepts (rawurl : string) (u : URL) :
  parse rawurl = inr u -> URL_String u = rawurl /\ parse (URL_String u) = inr u.
Proof.
  destruct rawurl as [|a r]; [intros H; inversion H; subst; auto|].
  destruct a as [[] [] [] [] [] [] [] []]; cbn; intros H; inversion H; subst; auto.
Qed.

(** In the small world a request for [GET] and a parsed URL builds. *)
Lemma Sim_requests_build (cfg : Config) : RequestsBuild (env cfg).
Proof.
  intros rawurl u body Hu. cbn in *. unfold newRequest.
  destruct (parse_accepts _ Hu) as [_ Hp]. rewrite Hp.
  eexists. lazy. reflexivity.
Qed.

(** Group [backend] with the one replica [http://a] behind a limiter of
    capacity one: the call ends with the slot of [backend] still held. *)
Lemma doRequest_leaves_under_server_witness :
  GetsSlot (env bounded) "/render" None (start one) "http://a" one
    (mkURL "http://a/render") (request_to "http://a/render")
    {| now := 1; held := ["backend"] |} /\
  groupName (self (start one)) <> "http://a" /\
  exists res s',
    doRequest (env bounded) "/render" None (start one) = Returned res s' /\
    In (EvEnter "backend" true) (log s') /\
    leaves (log s') = ["http://a"] /\
    held (world s') = ["backend"].
Proof.
  assert (Hslot : GetsSlot (env bounded) "/render" None (start one) "http://a" one
                    (mkURL "http://a/render") (request_to "http://a/render")
                    {| now := 1; held := ["backend"] |}).
  { exists {| Method := "GET"; RequestURL := "http://a/render";
              RequestBody := None; Header := [] |}.
    repeat split; reflexivity. }
  assert (Hne : groupName (self (start one)) <> "http://a") by discriminate.
  split; [exact Hslot|]. split; [exact Hne|].
  destruct (doRequest_leaves_under_server Hslot Hne)
    as (res & s' & after & Hrun & _).
  exists res, s'. split; [exact Hrun|].
  vm_compute in Hrun. inversion Hrun; subst; clear Hrun.
  cbn. repeat split; auto 10.
Defined.

(** A replica that answers 200 with a readable body. *)
Lemma doRequest_classifies_witness :
  GetsSlot (env (uniform 200 None)) "/render" None (start one) "http://a" one
    (mkURL "http://a/render") (request_to "http://a/render")
    {| now := 1; held := [] |} /\
  client_Do (env (uniform 200 None)) {| now := 1; held := [] |}
    (request_to "http://a/render")
  = ({| now := 2; held := [] |}, inr {| StatusCode := 200; Body := 0%nat |}) /\
  exists s',
    doRequest (env (uniform 200 None)) "/render" None (start one)
    = Returned (Some {| Server := "http://a"; Response := payload |}, None) s'.
Proof.
  assert (Hslot : GetsSlot (env (uniform 200 None)) "/render" None (start one)
                    "http://a" one (mkURL "http://a/render")
                    (request_to "http://a/render") {| now := 1; held := [] |}).
  { exists {| Method := "GET"; RequestURL := "http://a/render";
              RequestBody := None; Header := [] |}.
    repeat split; reflexivity. }
  assert (Hdo : client_Do (env (uniform 200 None)) {| now := 1; held := [] |}
                  (request_to "http://a/render")
                = ({| now := 2; held := [] |}, inr {| StatusCode := 200; Body := 0%nat |}))
    by reflexivity.
  split; [exact Hslot|]. split; [exact Hdo|].
  destruct (doRequest_classifies Hslot Hdo) as (_ & _ & _ & Hok & _).
  eexists. apply (Hok eq_refl {| now := 2; held := [] |} payload). reflexivity.
Defined.

(** The one slot of the group is taken: the limiter refuses. *)
Lemma doRequest_no_slot_no_call_witness :
  limiter_Enter (env bounded) (world (busy one)) (groupName (self (busy one)))
  = ({| now := 1; held := ["backend"] |}, Some slotTimeout) /\
  exists s',
    doRequest (env bounded) "/render" None (busy one)
    = Returned (None, Some slotTimeout) s' /\
    round_trips (log s') = 0%nat.
Proof.
  split; [reflexivity|].
  destruct (doRequest_no_slot_no_call (env bounded) (busy one) "/render" None
              (server := "http://a") (c' := one) (u := mkURL "http://a/render")
              (r := {| Method := "GET"; RequestURL := "http://a/render";
                       RequestBody := None; Header := [] |})
              (w1 := {| now := 1; held := ["backend"] |}) (err := slotTimeout)
              eq_refl eq_refl eq_refl eq_refl)
    as (s' & Hrun & _ & _ & Hnone).
  exists s'. split; [exact Hrun|exact Hnone].
Defined.

(** Three replicas that all answer 404, [maxTries = 1]: three tries and an
    aggregate of four entries. *)
Lemma DoQuery_exhausts_budget_witness :
  servers (self (start three)) <> [] /\
  FailedTries (env (uniform 404 None)) "/render" None 3 (start three)
    [ErrNotFound; ErrNotFound; ErrNotFound]
    (after (uniform 404 None) "/render" 3 (start three)) /\
  DoQuery (env (uniform 404 None)) "/render" None (start three)
  = Returned (None, Some [ErrNotFound; ErrNotFound; ErrNotFound; ErrMaxTriesExceeded])
      (after (uniform 404 None) "/render" 3 (start three)) /\
  tries (log (after (uniform 404 None) "/render" 3 (start three))) = 3%nat.
Proof.
  assert (Hne : servers (self (start three)) <> []) by discriminate.
  assert (F : FailedTries (env (uniform 404 None)) "/render" None
                (Z.to_nat (effectiveMaxTries (self (start three)))) (start three)
                [ErrNotFound; ErrNotFound; ErrNotFound]
                (after (uniform 404 None) "/render" 3 (start three))).
  { change (Z.to_nat (effectiveMaxTries (self (start three)))) with 3%nat.
    failed_try (after (uniform 404 None) "/render" 1 (start three)).
    failed_try (after (uniform 404 None) "/render" 2 (start three)).
    failed_try (after (uniform 404 None) "/render" 3 (start three)).
    apply FailedTries_O. }
  destruct (DoQuery_exhausts_budget Hne F) as (_ & Hrun & Htries & _).
  split; [exact Hne|]. split; [exact F|]. split; [exact Hrun|exact Htries].
Defined.

(** Three replicas that answer 404 and a context that is cancelled between
    the first try and the round trip of the second: the first error and the
    cancellation, and no third try. *)
Lemma DoQuery_stops_on_cancel_witness :
  FailedTries (env (uniform 404 (Some 3%nat))) "/render" None 1 (start three)
    [ErrNotFound] (after (uniform 404 (Some 3%nat)) "/render" 1 (start three)) /\
  (1 < Z.to_nat (effectiveMaxTries (self (start three))))%nat /\
  doRequest (env (uniform 404 (Some 3%nat))) "/render" None
    (after (uniform 404 (Some 3%nat)) "/render" 1 (start three))
  = Returned (None, Some ctxError)
      (after (uniform 404 (Some 3%nat)) "/render" 2 (start three)) /\
  ctx_Err (env (uniform 404 (Some 3%nat)))
    (world (after (uniform 404 (Some 3%nat)) "/render" 2 (start three)))
  = Some ctxError /\
  DoQuery (env (uniform 404 (Some 3%nat))) "/render" None (start three)
  = Returned (None, Some [ErrNotFound; ctxError])
      (after (uniform 404 (Some 3%nat)) "/render" 2 (start three)) /\
  tries (log (after (uniform 404 (Some 3%nat)) "/render" 2 (start three))) = 2%nat.
Proof.
  assert (F : FailedTries (env (uniform 404 (Some 3%nat))) "/render" None 1 (start three)
                [ErrNotFound] (after (uniform 404 (Some 3%nat)) "/render" 1 (start three))).
  { failed_try (after (uniform 404 (Some 3%nat)) "/render" 1 (start three)).
    apply FailedTries_O. }
  assert (Hk : (1 < Z.to_nat (effectiveMaxTries (self (start three))))%nat)
    by (vm_compute; lia).
  assert (Hdo : doRequest (env (uniform 404 (Some 3%nat))) "/render" None
                  (after (uniform 404 (Some 3%nat)) "/render" 1 (start three))
                = Returned (None, Some ctxError)
                    (after (uniform 404 (Some 3%nat)) "/render" 2 (start three)))
    by (vm_compute; reflexivity).
  assert (Hctx : ctx_Err (env (uniform 404 (Some 3%nat)))
                   (world (after (uniform 404 (Some 3%nat)) "/render" 2 (start three)))
                 = Some ctxError)
    by (vm_compute; reflexivity).
  destruct (DoQuery_stops_on_cancel F Hk Hdo Hctx) as (Hrun & Htries & _).
  repeat (split; [assumption|]). exact Htries.
Defined.

(** Three replicas of which only [http://a] is up; the picker reaches it on
    the third try. *)
Lemma DoQuery_one_slot_witness :
  FailedTries (env only_a) "/render" None 2 (start three)
    [ErrForeign "net/http" "connection refused";
     ErrForeign "net/http" "connection refused"]
    (after only_a "/render" 2 (start three)) /\
  (2 < Z.to_nat (effectiveMaxTries (self (start three))))%nat /\
  doRequest (env only_a) "/render" None (after only_a "/render" 2 (start three))
  = Returned (Some {| Server := "http://a"; Response := payload |}, None)
      (after only_a "/render" 3 (start three)) /\
  DoQuery (env only_a) "/render" None (start three)
  = Returned (Some {| Server := "http://a"; Response := payload |}, None)
      (after only_a "/render" 3 (start three)) /\
  one_slot (Some {| Server := "http://a"; Response := payload |}, @None Errors).
Proof.
  assert (F : FailedTries (env only_a) "/render" None 2 (start three)
                [ErrForeign "net/http" "connection refused";
                 ErrForeign "net/http" "connection refused"]
                (after only_a "/render" 2 (start three))).
  { failed_try (after only_a "/render" 1 (start three)).
    failed_try (after only_a "/render" 2 (start three)).
    apply FailedTries_O. }
  assert (Hk : (2 < Z.to_nat (effectiveMaxTries (self (start three))))%nat)
    by (vm_compute; lia).
  assert (Hdo : doRequest (env only_a) "/render" None (after only_a "/render" 2 (start three))
                = Returned (Some {| Server := "http://a"; Response := payload |}, None)
                    (after only_a "/render" 3 (start three)))
    by (vm_compute; reflexivity).
  destruct (DoQuery_one_slot (env only_a) "/render" None) as (Hslot & _ & Hlast).
  pose proof (Hlast _ _ _ _ _ _ F Hk Hdo) as Hrun.
  repeat (split; [assumption|]). exact (Hslot _ _ _ Hrun).
Defined.

(** Three replicas and a context that is cancelled from the start. *)
Lemma DoQuery_cancelled_at_entry_witness :
  HonoursCancellation (env (uniform 404 (Some 0%nat))) /\
  RequestsBuild (env (uniform 404 (Some 0%nat))) /\
  servers (self (start three)) <> [] /\
  ctx_Err (env (uniform 404 (Some 0%nat))) (world (start three)) <> None /\
  exists s1,
    DoQuery (env (uniform 404 (Some 0%nat))) "/render" None (start three)
    = Returned (None, Some [ctxError]) s1 /\
    tries (log s1) = 1%nat.
Proof.
  assert (Hc := Sim_honours_cancellation (uniform 404 (Some 0%nat))).
  assert (Hb := Sim_requests_build (uniform 404 (Some 0%nat))).
  assert (Hne : servers (self (start three)) <> []) by discriminate.
  assert (Hcan : ctx_Err (env (uniform 404 (Some 0%nat))) (world (start three)) <> None)
    by discriminate.
  repeat (split; [assumption|]).
  destruct (DoQuery_cancelled_at_entry (start three) "/render" None Hc Hb Hne Hcan)
    as (err & s1 & Hrun & _ & Htries & _).
  exists s1. split; [|exact Htries].
  rewrite Hrun. vm_compute in Hrun. inversion Hrun; subst. reflexivity.
Defined.

(** C3 as stated fails when the failed try did not fail of the
    cancellation.  The first replica answers 404 while the context is live;
    the context expires before [DoQuery] looks at it; the aggregate that
    comes back holds the not-found error alone, and neither the error of the
    context nor the limiter's. *)
Lemma DoQuery_stops_on_cancel_counterexample :
  ctx_Err (env (uniform 404 (Some 2%nat))) (world (start three)) = None /\
  DoQuery (env (uniform 404 (Some 2%nat))) "/render" None (start three)
  = Returned (None, Some [ErrNotFound])
      (after (uniform 404 (Some 2%nat)) "/render" 1 (start three)) /\
  ctx_Err (env (uniform 404 (Some 2%nat)))
    (world (after (uniform 404 (Some 2%nat)) "/render" 1 (start three)))
  = Some ctxError /\
  ~ In ctxError [ErrNotFound] /\
  ~ In slotTimeout [ErrNotFound].
Proof.
  split; [reflexivity|]. split; [vm_compute; reflexivity|].
  split; [vm_compute; reflexivity|].
  split; intros [H|[]]; discriminate H.
Qed.

(** C10 as stated fails when the URL of the try does not parse: with the
    one replica [:a] and a context cancelled from the start, the only entry
    of the aggregate is the error of [url.Parse]; no slot was asked for and
    no round trip made, and nothing in the aggregate comes of the
    cancellation. *)
Lemma DoQuery_cancelled_at_entry_counterexample :
  ctx_Err (env (uniform 404 (Some 0%nat))) (world (start Cases.malformed))
  = Some ctxError /\
  DoQuery (env (uniform 404 (Some 0%nat))) "/render" None (start Cases.malformed)
  = Returned (None, Some [ErrForeign "net/url" "missing protocol scheme"])
      (after (uniform 404 (Some 0%nat)) "/render" 1 (start Cases.malformed)) /\
  log (after (uniform 404 (Some 0%nat)) "/render" 1 (start Cases.malformed))
  = [EvParse ":a/render"] /\
  ~ In ctxError [ErrForeign "net/url" "missing protocol scheme"] /\
  ~ In slotTimeout [ErrForeign "net/url" "missing protocol scheme"].
Proof.
  split; [reflexivity|]. split; [vm_compute; reflexivity|].
  split; [vm_compute; reflexivity|].
  split; intros [H|[]]; discriminate H.
Qed.

(** Why C10 needs collaborators that honour the cancellation: behind the
    no-op limiter, a client whose transport does not look at the context
    makes the round trip, and [DoQuery] returns the response. *)
Example DoQuery_cancelled_deaf_client :
  ctx_Err (deaf (uniform 200 (Some 0%nat))) (world (start one)) = Some ctxError /\
  DoQuery (deaf (uniform 200 (Some 0%nat))) "/render" None (start one)
  = Returned (Some {| Server := "http://a"; Response := payload |}, None)
      (state_of (doRequest (deaf (uniform 200 (Some 0%nat))) "/render" None (start one))).
Proof. split; [reflexivity|vm_compute; reflexivity]. Qed.

(** What the stray [Leave] costs behind a limiter of capacity one: the
    second try of the same group finds the slot still taken. *)
Example bounded_second_try_starves :
  doRequest (env bounded) "/render" None (after bounded "/render" 1 (start one))
  = Returned (None, Some slotTimeout) (after bounded "/render" 2 (start one)).
Proof. vm_compute. reflexivity. Qed.

(** A one-replica group whose body read breaks off: the read error, then
    the sentinel. *)
Example DoQuery_broken_body :
  exists s',
    DoQuery (env broken_body) "/render" None (start one)
    = Returned (None, Some [ErrForeign "io" "unexpected EOF"; ErrMaxTriesExceeded]) s'.
Proof. eexists. vm_compute. reflexivity. Qed.

End Scenarios.

(* ================================================================== *)
(** * Tries, runs and their books *)
(* ================================================================== *)

Section Runs.

Context {W : Type} (env : Env W).

Lemma acquired_app (l1 l2 : list event) :
  acquired (l1 ++ l2) = (acquired l1 + acquired l2)%nat.
Proof. unfold acquired. now rewrite filter_app, length_app. Qed.

Lemma reads_app (l1 l2 : list event) : reads (l1 ++ l2) = (reads l1 + reads l2)%nat.
Proof. unfold reads. now rewrite filter_app, length_app. Qed.

Lemma closes_app (l1 l2 : list event) : closes (l1 ++ l2) = (closes l1 + closes l2)%nat.
Proof. unfold closes. now rewrite filter_app, length_app. Qed.

Lemma Balanced_nil : Balanced [].
Proof. unfold Balanced. cbn. repeat split; lia. Qed.

Lemma Balanced_app (l1 l2 : list event) :
  Balanced l1 -> Balanced l2 -> Balanced (l1 ++ l2).
Proof.
  unfold Balanced. intros (A1 & B1 & C1 & D1 & E1) (A2 & B2 & C2 & D2 & E2).
  rewrite acquired_app, round_trips_app, leaves_app, length_app, reads_app,
    closes_app, tries_app.
  repeat split; lia.
Qed.

(** One returning try: the replica it picked, what it logged, and whose
    answer a response is. *)
Lemma doRequest_try s uri body res err s' :
  doRequest env uri body s = Returned (res, err) s' ->
  exists server evs,
    pickServer (self s) = Ok (server, self s') /\
    log s' = log s ++ EvParse (String.append server uri) :: evs /\
    tries (EvParse (String.append server uri) :: evs) = 1%nat /\
    Balanced (EvParse (String.append server uri) :: evs) /\
    (forall r, res = Some r -> Server r = server).
Proof.
  unfold doRequest. run_monad. cbn.
  destruct (pickServer (self s)) as [[server c1]|m]; cbn; [|discriminate].
  destruct (url_Parse env _) as [e|u]; cbn; [try_leaf|].
  rewrite reader_of_body.
  destruct (http_NewRequest env _ _ _) as [e|r]; cbn; [discriminate|].
  destruct (limiter_Enter env _ _) as [w1 [e|]]; cbn; [try_leaf|].
  destruct (client_Do env _ _) as [w2 [e|resp]]; cbn; [try_leaf|].
  destruct (StatusCode resp =? StatusNotFound); cbn; [try_leaf|].
  destruct (StatusCode resp =? StatusOK); cbn; [|try_leaf].
  destruct (ioutil_ReadAll env _ _) as [w4 [data [e|]]]; cbn; try_leaf.
Qed.

Lemma pickServers_snoc (k : nat) : forall c picks c1 srv c2,
  pickServers k c = Ok (picks, c1) ->
  pickServer c1 = Ok (srv, c2) ->
  pickServers (S k) c = Ok (picks ++ [srv], c2).
Proof.
  induction k as [|k IH]; intros c picks c1 srv c2 Hk Hp.
  - cbn in Hk. inversion Hk; subst. cbn. now rewrite Hp.
  - cbn [pickServers] in Hk.
    destruct (pickServer c) as [[s0 c0]|m] eqn:H0; [|discriminate].
    destruct (pickServers k c0) as [[rest c']|m] eqn:Hrest; [|discriminate].
    inversion Hk; subst.
    change (pickServers (S (S k)) c)
      with (match pickServer c with
            | Panic m => Panic m
            | Ok (srv0, c3) =>
                match pickServers (S k) c3 with
                | Panic m => Panic m
                | Ok (rest0, c4) => Ok (srv0 :: rest0, c4)
                end
            end).
    rewrite H0, (IH _ _ _ _ _ Hrest Hp). reflexivity.
Qed.

(** [k] failed tries are [k] calls of the picker, and each has asked for the
    URL of the replica it picked. *)
Lemma FailedTries_log uri body k s errs s1 :
  FailedTries env uri body k s errs s1 ->
  exists evs picks,
    log s1 = log s ++ evs /\
    tries evs = k /\
    Balanced evs /\
    pickServers k (self s) = Ok (picks, self s1) /\
    (forall srv, In srv picks -> In (EvParse (String.append srv uri)) evs).
Proof.
  induction 1 as [s|k s res err s1 errs s2 Hdo Hctx Hrest IH].
  - exists [], []. rewrite app_nil_r.
    split; [reflexivity|]. split; [reflexivity|]. split; [apply Balanced_nil|].
    split; [reflexivity|]. intros srv [].
  - destruct IH as (evs & picks & Hlog & Ht & Hb & Hp & Hin).
    destruct (doRequest_try _ _ _ Hdo) as (server & ev1 & Hp1 & Hlog1 & Ht1 & Hb1 & _).
    exists ((EvParse (String.append server uri) :: ev1) ++ evs), (server :: picks).
    split; [|split; [|split; [|split]]].
    + rewrite Hlog, Hlog1, <- app_assoc. reflexivity.
    + rewrite tries_app, Ht1, Ht. reflexivity.
    + now apply Balanced_app.
    + cbn [pickServers]. rewrite Hp1, Hp. reflexivity.
    + intros srv [E|Hsrv].
      * subst srv. now left.
      * apply in_or_app. right. now apply Hin.
Qed.

(** Every returning run of the loop is [k] failed tries followed by one of
    three endings: the budget is used up, a failed try finds the context
    cancelled, or a try succeeds. *)
Lemma tryLoop_run (n : nat) uri body : forall e s r s',
  tryLoop env n uri body e s = Returned r s' ->
  exists k errs s1,
    (k <= n)%nat /\
    FailedTries env uri body k s errs s1 /\
    ((k = n /\ s' = s1 /\ r = (None, Some (e ++ errs ++ [ErrMaxTriesExceeded]))) \/
     ((k < n)%nat /\ exists res err cerr,
        doRequest env uri body s1 = Returned (res, Some err) s' /\
        ctx_Err env (world s') = Some cerr /\
        r = (None, Some (e ++ errs ++ [err]))) \/
     ((k < n)%nat /\ exists resp,
        doRequest env uri body s1 = Returned (Some resp, None) s' /\
        r = (Some resp, None))).
Proof.
  induction n as [|n IH]; intros e s r s'.
  - cbn. unfold ret, Errors_Add. intros H. inversion H; subst.
    exists O, [], s'. split; [lia|]. split; [constructor|]. left. auto.
  - rewrite tryLoop_S.
    destruct (doRequest env uri body s) as [[res [err|]] s1|msg s1] eqn:Hdo;
      [| |discriminate].
    + destruct (ctx_Err env (world s1)) as [cerr|] eqn:Hctx.
      * intros H. inversion H; subst.
        exists O, [], s. split; [lia|]. split; [constructor|].
        right. left. split; [lia|]. exists res, err, cerr. auto.
      * intros H. destruct (IH _ _ _ _ H) as (k & errs & s2 & Hk & Hf & Hend).
        exists (S k), (err :: errs), s2. split; [lia|].
        split; [econstructor; eassumption|].
        destruct Hend as [(Ek & Es & Er)|[(Hlt & res' & err' & cerr & Hd & Hc & Er)
                                         |(Hlt & resp & Hd & Er)]].
        -- left. repeat split; [lia|assumption|].
           rewrite Er, <- app_assoc. reflexivity.
        -- right. left. split; [lia|]. exists res', err', cerr.
           repeat split; try assumption. rewrite Er, <- app_assoc. reflexivity.
        -- right. right. split; [lia|]. exists resp. auto.
    + intros H. inversion H; subst.
      destruct (doRequest_returned _ _ _ _ Hdo) as (_ & _ & [[_ Hn]|[Hn _]]);
        [congruence|].
      destruct res as [resp|]; [|congruence].
      exists O, [], s. split; [lia|]. split; [constructor|].
      right. right. split; [lia|]. exists resp. auto.
Qed.

End Runs.

Section RunProperties.

Context {W : Type} (env : Env W).

Lemma index_member (l : list string) (i : Z) (srv : string) :
  index l i = Ok srv -> In srv l.
Proof.
  unfold index. destruct ((i <? 0) || (len l <=? i)); [discriminate|].
  destruct (nth_error l (Z.to_nat i)) as [x|] eqn:E; [|discriminate].
  intros H. inversion H; subst. eapply nth_error_In, E.
Qed.

Lemma pickServer_member (c c' : HttpQuery) (srv : string) :
  pickServer c = Ok (srv, c') -> In srv (servers c).
Proof.
  unfold pickServer. intros H.
  destruct (len (servers c) =? 1).
  - destruct (index (servers c) 0) eqn:E; inversion H; subst.
    eapply index_member, E.
  - destruct (len (servers c) =? 0); [discriminate|].
    destruct (index (servers c) _) eqn:E; inversion H; subst.
    eapply index_member, E.
Qed.

Lemma pickServers_members (k : nat) : forall c picks c',
  pickServers k c = Ok (picks, c') ->
  List.length picks = k /\
  servers c' = servers c /\
  forall srv, In srv picks -> In srv (servers c).
Proof.
  induction k as [|k IH]; intros c picks c' H.
  - cbn in H. inversion H; subst. repeat split. intros srv [].
  - cbn [pickServers] in H.
    destruct (pickServer c) as [[s0 c0]|m] eqn:H0; [|discriminate].
    destruct (pickServers k c0) as [[rest c1]|m] eqn:Hrest; [|discriminate].
    inversion H; subst.
    destruct (IH _ _ _ Hrest) as (Hl & Hs & Hin).
    destruct (pickServer_frame _ H0) as (_ & Hs0 & _).
    split; [cbn; lia|]. split; [congruence|].
    intros srv [E|Hsrv].
    + subst. eapply pickServer_member, H0.
    + rewrite <- Hs0. now apply Hin.
Qed.

Lemma FailedTries_ends_uncancelled uri body k s errs s1 :
  FailedTries env uri body k s errs s1 ->
  k = O \/ ctx_Err env (world s1) = None.
Proof.
  induction 1 as [s|k s res err s1 errs s2 Hdo Hctx Hrest IH]; [now left|right].
  destruct IH as [E|E]; [|exact E]. subst k. inversion Hrest; subst. exact Hctx.
Qed.

(** The books of a returning [DoQuery]. *)
Lemma DoQuery_books s uri body r s' :
  DoQuery env uri body s = Returned r s' ->
  exists t evs picks,
    (t <= Z.to_nat (effectiveMaxTries (self s)))%nat /\
    log s' = log s ++ evs /\
    tries evs = t /\
    Balanced evs /\
    pickServers t (self s) = Ok (picks, self s') /\
    (forall srv, In srv picks -> In (EvParse (String.append srv uri)) evs) /\
    (forall resp, fst r = Some resp ->
       exists before, picks = before ++ [Server resp]).
Proof.
  rewrite DoQuery_unfold. intros H.
  destruct (tryLoop_run _ _ _ _ _ _ H) as (k & errs & s1 & Hk & Hf & Hend).
  destruct (FailedTries_log Hf) as (evs & picks & Hlog & Ht & Hb & Hp & Hin).
  assert (Hone : forall res err,
            (k < Z.to_nat (effectiveMaxTries (self s)))%nat ->
            doRequest env uri body s1 = Returned (res, err) s' ->
            exists t evs picks,
              (t <= Z.to_nat (effectiveMaxTries (self s)))%nat /\
              log s' = log s ++ evs /\ tries evs = t /\ Balanced evs /\
              pickServers t (self s) = Ok (picks, self s') /\
              (forall srv, In srv picks -> In (EvParse (String.append srv uri)) evs) /\
              (forall resp, res = Some resp ->
                 exists before, picks = before ++ [Server resp])).
  { intros res err Hlt Hd.
    destruct (doRequest_try _ _ _ _ Hd) as (server & ev1 & Hp1 & Hlog1 & Ht1 & Hb1 & Hsrv).
    exists (S k), (evs ++ EvParse (String.append server uri) :: ev1), (picks ++ [server]).
    split; [lia|]. split; [rewrite Hlog1, Hlog, <- app_assoc; reflexivity|].
    split; [rewrite tries_app, Ht, Ht1; lia|].
    split; [now apply Balanced_app|].
    split; [now apply (pickServers_snoc _ _ Hp Hp1)|].
    split.
    - intros srv Hi. apply in_app_or in Hi. apply in_or_app.
      destruct Hi as [Hi|[E|[]]]; [left; now apply Hin|right; subst; now left].
    - intros resp E. exists picks. now rewrite (Hsrv _ E). }
  destruct Hend as [(Ek & Es & Er)|[(Hlt & res & err & cerr & Hd & Hc & Er)
                                   |(Hlt & resp & Hd & Er)]].
  - subst. exists (Z.to_nat (effectiveMaxTries (self s))), evs, picks.
    repeat (split; [first [assumption|reflexivity|lia]|]).
    cbn. discriminate.
  - subst r. destruct (Hone _ _ Hlt Hd) as (t & evs' & picks' & H1 & H2 & H3 & H4 & H5 & H6 & _).
    exists t, evs', picks'. repeat (split; [assumption|]). cbn. discriminate.
  - subst r. destruct (Hone _ _ Hlt Hd) as (t & evs' & picks' & H1 & H2 & H3 & H4 & H5 & H6 & H7).
    exists t, evs', picks'. repeat (split; [assumption|]). exact H7.
Qed.

(** X1.  On a non-empty replica list [pickServer] never panics, whatever the
    counter holds: it returns an address of the list and changes nothing of
    the dispatcher but the counter, which it leaves alone for one replica
    and steps to the next value of [0 .. 2^64 - 1] for more. *)
Theorem pickServer_picks_member (c : HttpQuery) :
  servers c <> [] ->
  exists srv c',
    pickServer c = Ok (srv, c') /\
    In srv (servers c) /\
    groupName c' = groupName c /\ servers c' = servers c /\
    maxTries c' = maxTries c /\ encoding c' = encoding c /\
    (len (servers c) = 1 -> c' = c) /\
    (2 <= len (servers c) ->
       counter c' = (counter c + 1) mod uint64_modulus /\
       0 <= counter c' < uint64_modulus).
Proof.
  intros Hne. destruct (pickServer_total c Hne) as (srv & c' & Hp).
  exists srv, c'. split; [exact Hp|]. split; [eapply pickServer_member, Hp|].
  destruct (pickServer_frame _ Hp) as (Hg & Hs & Hm & He).
  repeat (split; [assumption|]). split.
  - intros H1. destruct (servers c) as [|s0 [|s1 rest]] eqn:E;
      try (unfold len in H1; cbn in H1; lia).
    rewrite (pickServer_fast_path c E) in Hp. now inversion Hp.
  - intros H2. rewrite (pickServer_slow_path c H2) in Hp. inversion Hp; subst.
    cbn [counter set_counter]. split; [reflexivity|].
    apply Z.mod_pos_bound, uint64_modulus_pos.
Qed.

(** X2.  The exact rotation law, wrap included: on two replicas or more,
    call number [j] of [k] calls in a row returns the replica at position
    [((a + j) mod 2^64) mod n], where [a] is the counter before the first
    call and [n] the number of replicas, and the counter ends at
    [(a + k) mod 2^64]. *)
Theorem pickServers_exact_law (c : HttpQuery) (k : nat) :
  2 <= len (servers c) ->
  0 <= counter c < uint64_modulus ->
  exists picks c',
    pickServers k c = Ok (picks, c') /\
    c' = set_counter c ((counter c + Z.of_nat k) mod uint64_modulus) /\
    List.length picks = k /\
    forall j, (1 <= j <= k)%nat ->
      nth_error picks (j - 1)
      = Some (replica (servers c)
                (((counter c + Z.of_nat j) mod uint64_modulus) mod len (servers c))).
Proof.
  intros Hn Hc. eexists. eexists. split; [apply pickServers_wrapped; assumption|].
  split; [reflexivity|]. split; [now rewrite length_map, length_seq|].
  intros j Hj. rewrite nth_error_map.
  assert (Hl : (j - 1 < List.length (seq 1 k))%nat) by (rewrite length_seq; lia).
  rewrite (nth_error_nth' _ 0%nat Hl), seq_nth by lia. cbn [option_map].
  unfold wrapped_index. do 4 f_equal. lia.
Qed.

(** X3.  When the number of replicas divides [2^64] (two, four, eight, ...
    replicas) the wrap of the counter does not disturb the rotation: every
    call, without any bound on their number, returns the replica that
    follows the one of the call before in the list, cyclically. *)
Theorem pickServers_power_of_two (c : HttpQuery) (k : nat) :
  2 <= len (servers c) ->
  (len (servers c) | uint64_modulus) ->
  0 <= counter c < uint64_modulus ->
  exists c',
    pickServers k c
    = Ok (map (fun j => replica (servers c)
                          (rotating_index (len (servers c)) (counter c) j))
              (seq 1 k), c').
Proof.
  intros Hn Hdiv Hc. eexists.
  rewrite pickServers_wrapped by assumption. f_equal. f_equal.
  apply map_ext. intros j. unfold wrapped_index, rotating_index. f_equal.
  now apply Z.mod_mod_divide.
Qed.

(** X4.  A dispatcher without replicas: with a configured try count of zero
    or less [DoQuery] makes no try and returns the sentinel alone; with a
    positive one the first pick divides by zero and [DoQuery] panics. *)
Theorem DoQuery_no_replicas s uri body :
  servers (self s) = [] ->
  (maxTries (self s) <= 0 ->
     DoQuery env uri body s = Returned (None, Some [ErrMaxTriesExceeded]) s) /\
  (0 < maxTries (self s) ->
     exists s', DoQuery env uri body s = Panicked "integer divide by zero" s').
Proof.
  intros E. rewrite DoQuery_unfold.
  assert (B : effectiveMaxTries (self s) = Z.max (maxTries (self s)) 0)
    by (rewrite effectiveMaxTries_max, E; reflexivity).
  split; intros Hm.
  - rewrite B. replace (Z.to_nat (Z.max (maxTries (self s)) 0)) with O by lia.
    reflexivity.
  - rewrite B. destruct (Z.to_nat (Z.max (maxTries (self s)) 0)) eqn:En; [lia|].
    rewrite tryLoop_S. unfold doRequest. run_monad. cbn.
    unfold pickServer. rewrite E. cbn. eexists. reflexivity.
Qed.

(** X5.  A URL that does not parse costs nothing but the pick: [doRequest]
    returns the parse error without asking the limiter for a slot and
    without a round trip, and the world is untouched. *)
Theorem doRequest_unparsable_url s uri body server c' err :
  pickServer (self s) = Ok (server, c') ->
  url_Parse env (String.append server uri) = inl err ->
  exists s',
    doRequest env uri body s = Returned (None, Some err) s' /\
    self s' = c' /\ world s' = world s /\
    log s' = log s ++ [EvParse (String.append server uri)] /\
    acquired (log s') = acquired (log s) /\
    round_trips (log s') = round_trips (log s).
Proof.
  intros Hp Hu. eexists. split; [apply (doRequest_parse_error _ _ _ _ Hp Hu)|].
  cbn [self world log]. repeat split.
  - rewrite acquired_app. cbn. lia.
  - rewrite round_trips_app. cbn. lia.
Qed.

(** X6.  A round trip that fails in the transport: the client's error comes
    back as it is, [Leave] has been called after the round trip, and no
    body is read or closed, there being no response. *)
Theorem doRequest_transport_failure s uri body server c' u req w1 w2 err :
  GetsSlot env uri body s server c' u req w1 ->
  client_Do env w1 req = (w2, inl err) ->
  exists s',
    doRequest env uri body s = Returned (None, Some err) s' /\
    world s' = limiter_Leave env w2 server /\
    log s' = log s ++ preamble (self s) server uri u true
                   ++ [EvDo (RequestURL req); EvLeave server] /\
    reads (log s') = reads (log s) /\
    closes (log s') = closes (log s).
Proof.
  intros Hslot Hdo. eexists. split; [apply (doRequest_transport_error Hslot Hdo)|].
  cbn [world log]. repeat split.
  - rewrite reads_app. cbn. lia.
  - rewrite closes_app. cbn. lia.
Qed.

(** X7.  Once the client has returned a response, its body is closed
    exactly once, as the last thing [doRequest] does, whatever the status;
    and the body is read only when the status is 200, once, before it is
    closed. *)
Theorem doRequest_closes_body s uri body server c' u req w1 w2 resp :
  GetsSlot env uri body s server c' u req w1 ->
  client_Do env w1 req = (w2, inr resp) ->
  exists res s',
    doRequest env uri body s = Returned res s' /\
    log s' = log s ++ preamble (self s) server uri u true
                   ++ [EvDo (RequestURL req); EvLeave server]
                   ++ (if StatusCode resp =? StatusOK then [EvReadAll (Body resp)] else [])
                   ++ [EvClose (Body resp)].
Proof.
  intros Hslot Hdo.
  pose proof (doRequest_response Hslot Hdo) as E. cbv zeta in E.
  destruct (Z.eqb_spec (StatusCode resp) StatusNotFound) as [H404|H404].
  { assert (H200 : (StatusCode resp =? StatusOK) = false)
      by (rewrite H404; reflexivity).
    rewrite H200. eexists. eexists. split; [exact E|]. tidy_log. }
  destruct (StatusCode resp =? StatusOK); cbn [negb] in E.
  2:{ eexists. eexists. split; [exact E|]. tidy_log. }
  unfold defer, bind, call_ioutil_ReadAll, call_Body_Close, ret in E.
  cbn [world log self] in E.
  destruct (ioutil_ReadAll env (limiter_Leave env w2 server) (Body resp))
    as [w4 [data [e|]]]; cbn [world log self] in E;
    (eexists; eexists; split; [exact E|tidy_log]).
Qed.

End RunProperties.

Section RunTheorems.

Context {W : Type} (env : Env W).

Lemma pickServers_frame (k : nat) : forall c picks c',
  pickServers k c = Ok (picks, c') ->
  groupName c' = groupName c /\ maxTries c' = maxTries c /\
  encoding c' = encoding c /\
  (len (servers c) = 1 -> c' = c).
Proof.
  induction k as [|k IH]; intros c picks c' H.
  - cbn in H. inversion H; subst. auto.
  - cbn [pickServers] in H.
    destruct (pickServer c) as [[s0 c0]|m] eqn:H0; [|discriminate].
    destruct (pickServers k c0) as [[rest c1]|m] eqn:Hrest; [|discriminate].
    inversion H; subst.
    destruct (IH _ _ _ Hrest) as (Hg & Hm & He & H1).
    destruct (pickServer_frame _ H0) as (Hg0 & Hs0 & Hm0 & He0).
    repeat split; try congruence.
    intros Hone.
    assert (c0 = c).
    { destruct (servers c) as [|x [|y rest']] eqn:E;
        try (unfold len in Hone; cbn in Hone; lia).
      rewrite (pickServer_fast_path c E) in H0. now inversion H0. }
    subst c0. now apply H1.
Qed.

(** X8.  The books of every returning [DoQuery] balance: the round trips it
    made are as many as the slots it was granted and as the [Leave] calls
    it made; it closed no more bodies than it made round trips and read no
    more bodies than it closed; and it made no more round trips than tries,
    and no more tries than its budget. *)
Theorem DoQuery_books_balance s uri body r s' :
  DoQuery env uri body s = Returned r s' ->
  exists evs,
    log s' = log s ++ evs /\
    acquired evs = round_trips evs /\
    List.length (leaves evs) = round_trips evs /\
    (reads evs <= closes evs)%nat /\
    (closes evs <= round_trips evs)%nat /\
    (round_trips evs <= tries evs)%nat /\
    (tries evs <= Z.to_nat (effectiveMaxTries (self s)))%nat.
Proof.
  intros H.
  destruct (DoQuery_books env s uri body H) as (t & evs & picks & Ht & Hlog & Htr & Hb & _).
  destruct Hb as (B1 & B2 & B3 & B4 & B5).
  exists evs. repeat (split; [assumption|]). lia.
Qed.

(** X9.  How a returning [DoQuery] can end, and what the aggregate then
    holds.  With [t] the number of tries it made, within its budget: a
    response and no aggregate, after at least one try; or no response and
    exactly [t] errors, one for each try, the context being cancelled; or
    no response and [t] errors followed by [ErrMaxTriesExceeded], [t] being
    the whole budget and the context not being cancelled after the last
    try. *)
Theorem DoQuery_outcomes s uri body r s' :
  DoQuery env uri body s = Returned r s' ->
  exists t,
    tries (log s') = (tries (log s) + t)%nat /\
    (t <= Z.to_nat (effectiveMaxTries (self s)))%nat /\
    ((exists resp, r = (Some resp, None) /\ (1 <= t)%nat) \/
     (exists errs cerr,
        r = (None, Some errs) /\ List.length errs = t /\ (1 <= t)%nat /\
        ctx_Err env (world s') = Some cerr) \/
     (exists errs,
        r = (None, Some (errs ++ [ErrMaxTriesExceeded])) /\
        List.length errs = t /\
        t = Z.to_nat (effectiveMaxTries (self s)) /\
        (t = O \/ ctx_Err env (world s') = None))).
Proof.
  rewrite DoQuery_unfold. intros H.
  destruct (tryLoop_run _ _ _ _ _ _ H) as (k & errs & s1 & Hk & Hf & Hend).
  destruct (FailedTries_facts Hf) as (_ & _ & Hlen & Htr).
  destruct Hend as [(Ek & Es & Er)|[(Hlt & res & err & cerr & Hd & Hc & Er)
                                   |(Hlt & resp & Hd & Er)]].
  - subst s'. exists k. split; [exact Htr|]. split; [lia|].
    right. right. exists errs. cbn [app] in Er.
    repeat (split; [assumption|]).
    apply (FailedTries_ends_uncancelled Hf).
  - destruct (doRequest_returned _ _ _ _ Hd) as (_ & (evs & Hlog & Hone) & _).
    exists (S k). split; [rewrite Hlog, tries_app, Hone, Htr; lia|]. split; [lia|].
    right. left. exists (errs ++ [err]), cerr. cbn [app] in Er.
    split; [exact Er|]. split; [rewrite length_app, Hlen; cbn; lia|].
    split; [lia|exact Hc].
  - destruct (doRequest_returned _ _ _ _ Hd) as (_ & (evs & Hlog & Hone) & _).
    exists (S k). split; [rewrite Hlog, tries_app, Hone, Htr; lia|]. split; [lia|].
    left. exists resp. split; [exact Er|lia].
Qed.

(** X10.  A returning [DoQuery] writes nothing of the dispatcher but the
    selection counter: the group name, the replica list, the configured
    tries and the encoding are as they were; and of a one-replica
    dispatcher it does not touch the counter either. *)
Theorem DoQuery_keeps_configuration s uri body r s' :
  DoQuery env uri body s = Returned r s' ->
  groupName (self s') = groupName (self s) /\
  servers (self s') = servers (self s) /\
  maxTries (self s') = maxTries (self s) /\
  encoding (self s') = encoding (self s) /\
  (len (servers (self s)) = 1 -> self s' = self s).
Proof.
  intros H.
  destruct (DoQuery_books env s uri body H) as (t & evs & picks & _ & _ & _ & _ & Hp & _).
  destruct (pickServers_frame _ _ Hp) as (Hg & Hm & He & H1).
  destruct (pickServers_members _ _ Hp) as (_ & Hs & _).
  repeat (split; [assumption|]). exact H1.
Qed.

(** X12.  The response [DoQuery] returns is the answer of a replica of the
    list, the one its last try picked, and that try has asked for that
    replica's URL. *)
Theorem DoQuery_answer_from_list s uri body resp s' :
  DoQuery env uri body s = Returned (Some resp, None) s' ->
  In (Server resp) (servers (self s)) /\
  In (EvParse (String.append (Server resp) uri)) (log s') /\
  exists t before,
    pickServers t (self s) = Ok (before ++ [Server resp], self s').
Proof.
  intros H.
  destruct (DoQuery_books env s uri body H) as (t & evs & picks & _ & Hlog & _ & _ & Hp & Hin & Hlast).
  destruct (Hlast resp eq_refl) as [before Hb]. subst picks.
  destruct (pickServers_members _ _ Hp) as (_ & _ & Hmem).
  split; [apply Hmem, in_or_app; right; now left|].
  split.
  - rewrite Hlog. apply in_or_app. right. apply Hin, in_or_app. right. now left.
  - exists t, before. exact Hp.
Qed.

End RunTheorems.

(* ================================================================== *)
(** * The further properties at work in the small world *)
(* ================================================================== *)

Section MoreScenarios.

Import Sim.

(** Three replicas, a fresh dispatcher. *)
Lemma pickServer_picks_member_witness :
  servers three <> [] /\
  exists srv c', pickServer three = Ok (srv, c') /\ In srv (servers three).
Proof.
  assert (Hne : servers three <> []) by discriminate.
  split; [exact Hne|].
  destruct (pickServer_picks_member three Hne) as (srv & c' & Hp & Hin & _).
  exists srv, c'. split; [exact Hp|exact Hin].
Defined.

(** Three replicas, four calls. *)
Lemma pickServers_exact_law_witness :
  2 <= len (servers three) /\
  0 <= counter three < uint64_modulus /\
  exists picks c',
    pickServers 4 three = Ok (picks, c') /\ List.length picks = 4%nat.
Proof.
  assert (Hn : 2 <= len (servers three)) by (vm_compute; discriminate).
  assert (Hc : 0 <= counter three < uint64_modulus)
    by (split; [discriminate|reflexivity]).
  split; [exact Hn|]. split; [exact Hc|].
  destruct (pickServers_exact_law three 4 Hn Hc) as (picks & c' & Hp & _ & Hl & _).
  exists picks, c'. split; [exact Hp|exact Hl].
Defined.

(** Two replicas, five calls. *)
Lemma pickServers_power_of_two_witness :
  2 <= len (servers Cases.two) /\
  (len (servers Cases.two) | uint64_modulus) /\
  0 <= counter Cases.two < uint64_modulus /\
  exists c',
    pickServers 5 Cases.two
    = Ok (["http://b"; "http://a"; "http://b"; "http://a"; "http://b"], c').
Proof.
  assert (Hn : 2 <= len (servers Cases.two)) by (vm_compute; discriminate).
  assert (Hd : (len (servers Cases.two) | uint64_modulus))
    by (exists (2 ^ 63); reflexivity).
  assert (Hc : 0 <= counter Cases.two < uint64_modulus)
    by (split; [discriminate|reflexivity]).
  split; [exact Hn|]. split; [exact Hd|]. split; [exact Hc|].
  destruct (pickServers_power_of_two Cases.two 5 Hn Hd Hc) as (c' & Hp).
  exists c'. exact Hp.
Defined.

(** No replicas: nothing configured, and three tries configured. *)
Lemma DoQuery_no_replicas_witness :
  servers (self (start Cases.idle)) = [] /\
  maxTries (self (start Cases.idle)) <= 0 /\
  DoQuery (env (uniform 200 None)) "/render" None (start Cases.idle)
  = Returned (None, Some [ErrMaxTriesExceeded]) (start Cases.idle) /\
  servers (self (start Cases.stranded)) = [] /\
  0 < maxTries (self (start Cases.stranded)) /\
  exists s',
    DoQuery (env (uniform 200 None)) "/render" None (start Cases.stranded)
    = Panicked "integer divide by zero" s'.
Proof.
  assert (H0 : maxTries (self (start Cases.idle)) <= 0) by discriminate.
  assert (H3 : 0 < maxTries (self (start Cases.stranded))) by reflexivity.
  split; [reflexivity|]. split; [exact H0|].
  split.
  - exact (proj1 (DoQuery_no_replicas (env (uniform 200 None)) (start Cases.idle)
                    "/render" None eq_refl) H0).
  - split; [reflexivity|]. split; [exact H3|].
    exact (proj2 (DoQuery_no_replicas (env (uniform 200 None)) (start Cases.stranded)
                    "/render" None eq_refl) H3).
Defined.

(** A replica address that makes no URL. *)
Lemma doRequest_unparsable_url_witness :
  pickServer (self (start Cases.malformed)) = Ok (":a", Cases.malformed) /\
  url_Parse (env (uniform 200 None)) ":a/render"
  = inl (ErrForeign "net/url" "missing protocol scheme") /\
  exists s',
    doRequest (env (uniform 200 None)) "/render" None (start Cases.malformed)
    = Returned (None, Some (ErrForeign "net/url" "missing protocol scheme")) s' /\
    world s' = world (start Cases.malformed) /\
    round_trips (log s') = 0%nat.
Proof.
  split; [reflexivity|]. split; [reflexivity|].
  destruct (doRequest_unparsable_url (env (uniform 200 None)) (start Cases.malformed)
              "/render" None (server := ":a") (c' := Cases.malformed)
              (err := ErrForeign "net/url" "missing protocol scheme")
              eq_refl eq_refl)
    as (s' & Hrun & _ & Hw & _ & _ & Hr).
  exists s'. split; [exact Hrun|]. split; [exact Hw|exact Hr].
Defined.

(** The first pick of three replicas is [http://b], which is down. *)
Lemma doRequest_transport_failure_witness :
  GetsSlot (env only_a) "/render" None (start three) "http://b" (set_counter three 1)
    (mkURL "http://b/render") (request_to "http://b/render")
    {| now := 1; held := [] |} /\
  client_Do (env only_a) {| now := 1; held := [] |} (request_to "http://b/render")
  = ({| now := 2; held := [] |}, inl (ErrForeign "net/http" "connection refused")) /\
  exists s',
    doRequest (env only_a) "/render" None (start three)
    = Returned (None, Some (ErrForeign "net/http" "connection refused")) s' /\
    closes (log s') = 0%nat.
Proof.
  assert (Hslot : GetsSlot (env only_a) "/render" None (start three) "http://b"
                    (set_counter three 1) (mkURL "http://b/render")
                    (request_to "http://b/render") {| now := 1; held := [] |}).
  { exists {| Method := "GET"; RequestURL := "http://b/render";
              RequestBody := None; Header := [] |}.
    repeat split; reflexivity. }
  assert (Hdo : client_Do (env only_a) {| now := 1; held := [] |}
                  (request_to "http://b/render")
                = ({| now := 2; held := [] |},
                   inl (ErrForeign "net/http" "connection refused")))
    by reflexivity.
  split; [exact Hslot|]. split; [exact Hdo|].
  destruct (doRequest_transport_failure Hslot Hdo) as (s' & Hrun & _ & _ & _ & Hc).
  exists s'. split; [exact Hrun|exact Hc].
Defined.

(** A replica that answers 404: the body is closed unread. *)
Lemma doRequest_closes_body_witness :
  GetsSlot (env (uniform 404 None)) "/render" None (start one) "http://a" one
    (mkURL "http://a/render") (request_to "http://a/render")
    {| now := 1; held := [] |} /\
  client_Do (env (uniform 404 None)) {| now := 1; held := [] |}
    (request_to "http://a/render")
  = ({| now := 2; held := [] |}, inr {| StatusCode := 404; Body := 0%nat |}) /\
  exists res s',
    doRequest (env (uniform 404 None)) "/render" None (start one) = Returned res s' /\
    reads (log s') = 0%nat /\ closes (log s') = 1%nat.
Proof.
  assert (Hslot : GetsSlot (env (uniform 404 None)) "/render" None (start one)
                    "http://a" one (mkURL "http://a/render")
                    (request_to "http://a/render") {| now := 1; held := [] |}).
  { exists {| Method := "GET"; RequestURL := "http://a/render";
              RequestBody := None; Header := [] |}.
    repeat split; reflexivity. }
  assert (Hdo : client_Do (env (uniform 404 None)) {| now := 1; held := [] |}
                  (request_to "http://a/render")
                = ({| now := 2; held := [] |}, inr {| StatusCode := 404; Body := 0%nat |}))
    by reflexivity.
  split; [exact Hslot|]. split; [exact Hdo|].
  destruct (doRequest_closes_body Hslot Hdo) as (res & s' & Hrun & Hlog).
  exists res, s'. split; [exact Hrun|]. rewrite Hlog. split; reflexivity.
Defined.

(** The all-404 run of three replicas. *)
Lemma all_404_run :
  DoQuery (env (uniform 404 None)) "/render" None (start three)
  = Returned (None, Some [ErrNotFound; ErrNotFound; ErrNotFound; ErrMaxTriesExceeded])
      (after (uniform 404 None) "/render" 3 (start three)).
Proof. vm_compute. reflexivity. Qed.

(** The run that succeeds on the third try. *)
Lemma third_try_run :
  DoQuery (env only_a) "/render" None (start three)
  = Returned (Some {| Server := "http://a"; Response := payload |}, None)
      (after only_a "/render" 3 (start three)).
Proof. vm_compute. reflexivity. Qed.

Lemma DoQuery_books_balance_witness :
  DoQuery (env (uniform 404 None)) "/render" None (start three)
  = Returned (None, Some [ErrNotFound; ErrNotFound; ErrNotFound; ErrMaxTriesExceeded])
      (after (uniform 404 None) "/render" 3 (start three)) /\
  exists evs,
    log (after (uniform 404 None) "/render" 3 (start three)) = log (start three) ++ evs /\
    acquired evs = round_trips evs /\
    List.length (leaves evs) = round_trips evs.
Proof.
  split; [exact all_404_run|].
  destruct (DoQuery_books_balance _ _ _ _ all_404_run) as (evs & Hlog & Ha & Hl & _).
  exists evs. split; [exact Hlog|]. split; [exact Ha|exact Hl].
Defined.

Lemma DoQuery_outcomes_witness :
  DoQuery (env (uniform 404 None)) "/render" None (start three)
  = Returned (None, Some [ErrNotFound; ErrNotFound; ErrNotFound; ErrMaxTriesExceeded])
      (after (uniform 404 None) "/render" 3 (start three)) /\
  exists t,
    tries (log (after (uniform 404 None) "/render" 3 (start three)))
    = (tries (log (start three)) + t)%nat /\
    (t <= Z.to_nat (effectiveMaxTries (self (start three))))%nat.
Proof.
  split; [exact all_404_run|].
  destruct (DoQuery_outcomes _ _ _ _ all_404_run) as (t & Ht & Hb & _).
  exists t. split; [exact Ht|exact Hb].
Defined.

Lemma DoQuery_keeps_configuration_witness :
  DoQuery (env only_a) "/render" None (start three)
  = Returned (Some {| Server := "http://a"; Response := payload |}, None)
      (after only_a "/render" 3 (start three)) /\
  servers (self (after only_a "/render" 3 (start three))) = servers (self (start three)) /\
  maxTries (self (after only_a "/render" 3 (start three))) = maxTries (self (start three)).
Proof.
  split; [exact third_try_run|].
  destruct (DoQuery_keeps_configuration _ _ _ _ third_try_run) as (_ & Hs & Hm & _).
  split; [exact Hs|exact Hm].
Defined.

Lemma DoQuery_answer_from_list_witness :
  DoQuery (env only_a) "/render" None (start three)
  = Returned (Some {| Server := "http://a"; Response := payload |}, None)
      (after only_a "/render" 3 (start three)) /\
  In "http://a" (servers (self (start three))).
Proof.
  split; [exact third_try_run|].
  exact (proj1 (DoQuery_answer_from_list _ _ _ _ third_try_run)).
Defined.

End MoreScenarios.

(* ================================================================== *)
(** * The logger configuration: proofs *)
(* ================================================================== *)

Section LoggerConfig.

Import Zapwriter.

Variable lib : Lib.

(** The two option-valued [switch]es of [encoder] find an encoder for the
    known names and for no other. *)
Lemma time_switch (t : string) :
  (exists enc,
     (if String.eqb t "millis" then Some EpochMillisTimeEncoder
      else if String.eqb t "nanos" then Some EpochNanosTimeEncoder
      else if String.eqb t "epoch" then Some EpochTimeEncoder
      else if String.eqb t "iso8601" || String.eqb t "" then Some ISO8601TimeEncoder
      else None) = Some enc)
  <-> In t time_encodings.
Proof.
  unfold time_encodings. split.
  - intros [enc H]. revert H.
    switch_on t; cbn [orb]; try discriminate; intros _; subst; cbn; auto 10.
  - cbn [In]. intros H.
    repeat match goal with
           | H : _ \/ _ |- _ => destruct H as [H|H]
           | H : False |- _ => destruct H
           end; rewrite <- H; cbn; eauto.
Qed.

Lemma duration_switch (d : string) :
  (exists enc,
     (if String.eqb d "seconds" || String.eqb d "" then Some SecondsDurationEncoder
      else if String.eqb d "nanos" then Some NanosDurationEncoder
      else if String.eqb d "string" then Some StringDurationEncoder
      else None) = Some enc)
  <-> In d duration_encodings.
Proof.
  unfold duration_encodings. split.
  - intros [enc H]. revert H.
    switch_on d; cbn [orb]; try discriminate; intros _; subst; cbn; auto 10.
  - cbn [In]. intros H.
    repeat match goal with
           | H : _ \/ _ |- _ => destruct H as [H|H]
           | H : False |- _ => destruct H
           end; rewrite <- H; cbn; eauto.
Qed.

(** [encoder] returns an encoder or an error, never both and never
    neither. *)
Lemma encoder_shape (c : Config) :
  (exists enc lvl, encoder lib c = (Some enc, lvl, None)) \/
  (exists lvl err, encoder lib c = (None, lvl, Some err)).
Proof.
  unfold encoder.
  destruct (net_url_Parse lib (File c)) as [e|u]; [right; eauto|].
  destruct (Level_UnmarshalText lib _) as [e|lvl]; [right; eauto|].
  cbv zeta.
  set (t := strings_ToLower lib (if String.eqb (Query_Get u "encoding-time") "" then _ else _)).
  set (d := strings_ToLower lib (if String.eqb (Query_Get u "encoding-duration") "" then _ else _)).
  set (e := strings_ToLower lib (if String.eqb (Query_Get u "encoding") "" then _ else _)).
  destruct (if String.eqb t "millis" then _ else _) as [encT|]; [|right; eauto].
  destruct (if String.eqb d "seconds" || String.eqb d "" then _ else _) as [encD|];
    [|right; eauto].
  switch_on e; cbn [orb]; eauto.
Qed.

(** [encoder] succeeds on the valid configurations and on no other. *)
Lemma encoder_accepts (c : Config) :
  (exists enc lvl, encoder lib c = (Some enc, lvl, None)) <-> Valid lib c.
Proof.
  unfold Valid, effective, encoder. split.
  - intros (enc & lvl & H). revert H.
    destruct (net_url_Parse lib (File c)) as [e|u]; [discriminate|].
    destruct (Level_UnmarshalText lib _) as [e|lvl'] eqn:Hl; [discriminate|].
    cbv zeta.
    set (t := strings_ToLower lib (if String.eqb (Query_Get u "encoding-time") "" then _ else _)).
    set (d := strings_ToLower lib (if String.eqb (Query_Get u "encoding-duration") "" then _ else _)).
    set (e := strings_ToLower lib (if String.eqb (Query_Get u "encoding") "" then _ else _)).
    destruct (if String.eqb t "millis" then _ else _) as [encT|] eqn:Et; [|discriminate].
    destruct (if String.eqb d "seconds" || String.eqb d "" then _ else _) as [encD|] eqn:Ed;
      [|discriminate].
    intros H. exists u, lvl'. split; [reflexivity|]. split; [exact Hl|].
    split; [apply time_switch; eauto|]. split; [apply duration_switch; eauto|].
    unfold encodings. revert H.
    switch_on e; cbn [orb]; try discriminate; intros _; cbn; auto 10.
  - intros (u & lvl & Hu & Hl & Ht & Hd & He).
    rewrite Hu, Hl. cbv zeta.
    apply time_switch in Ht. destruct Ht as [encT Et]. rewrite Et.
    apply duration_switch in Hd. destruct Hd as [encD Ed]. rewrite Ed.
    unfold encodings in He. cbn [In] in He.
    repeat match goal with
           | H : _ \/ _ |- _ => destruct H as [H|H]
           | H : False |- _ => destruct H
           end; rewrite <- He; cbn; eauto.
Qed.

(** X13.  [Check] stands guard for [BuildLogger]: an error of [Check] is
    the error of [BuildLogger], which then builds nothing; and once [Check]
    passes, [BuildLogger] returns the no-op logger when the path of the
    file URL is [none] in any case of letters, and otherwise a logger on
    the writer of the file, or the error of that writer and nothing else. *)
Theorem Check_guards_BuildLogger (c : Config) :
  (forall err, Check lib c = Some err -> BuildLogger lib c = (None, Some err)) /\
  (Check lib c = None ->
     exists u enc lvl,
       net_url_Parse lib (File c) = inr u /\
       encoder lib c = (Some enc, lvl, None) /\
       BuildLogger lib c
       = if String.eqb (strings_ToLower lib (Path u)) "none" then (Some NewNop, None)
         else match New lib (File c) with
              | inl err => (None, Some err)
              | inr ws => (Some (zap_New (Some enc) ws lvl), None)
              end).
Proof.
  unfold Check, BuildLogger, build.
  destruct (net_url_Parse lib (File c)) as [e|u] eqn:Hu.
  - split; [intros err H; cbn in H; congruence|discriminate].
  - destruct (encoder_shape c) as [(enc & lvl & E)|(lvl & err & E)]; rewrite E; cbn [snd].
    + split; [discriminate|]. intros _. exists u, enc, lvl. auto.
    + split; [intros err' H; congruence|discriminate].
Qed.

(** X14.  [Check] passes exactly the valid configurations: the file parses
    as a URL, the level (query parameter [level], or the field [Level] when
    that is empty) is one [UnmarshalText] knows, and the lower-cased time
    encoding, duration encoding and encoding, resolved the same way, are
    each one of the known names or empty. *)
Theorem Check_accepts_exactly (c : Config) :
  Check lib c = None <-> Valid lib c.
Proof.
  rewrite <- encoder_accepts. unfold Check, build. split.
  - destruct (net_url_Parse lib (File c)) as [e|u] eqn:Hu; [discriminate|].
    destruct (encoder_shape c) as [(enc & lvl & E)|(lvl & err & E)]; rewrite E.
    + eauto.
    + discriminate.
  - intros (enc & lvl & E).
    destruct (net_url_Parse lib (File c)) as [e|u] eqn:Hu.
    + unfold encoder in E. rewrite Hu in E. discriminate.
    + rewrite E. reflexivity.
Qed.

(** X15.  A non-empty query parameter of the file URL overrides the field
    of the same setting, and the field [Logger] is never read: two
    configurations with the same file that agree on every setting the
    query leaves empty get the same encoder and the same logger. *)
Theorem query_overrides_fields (c c' : Config) (u : FileURL) :
  File c' = File c ->
  net_url_Parse lib (File c) = inr u ->
  (Query_Get u "level" <> "" \/ Level c' = Level c) ->
  (Query_Get u "encoding" <> "" \/ Encoding c' = Encoding c) ->
  (Query_Get u "encoding-time" <> "" \/ EncodingTime c' = EncodingTime c) ->
  (Query_Get u "encoding-duration" <> "" \/ EncodingDuration c' = EncodingDuration c) ->
  encoder lib c' = encoder lib c /\
  forall checkOnly, build lib c' checkOnly = build lib c checkOnly.
Proof.
  intros Hf Hu H1 H2 H3 H4.
  assert (E : forall key (f : Config -> string),
            (Query_Get u key <> "" \/ f c' = f c) ->
            (if String.eqb (Query_Get u key) "" then f c' else Query_Get u key)
            = (if String.eqb (Query_Get u key) "" then f c else Query_Get u key)).
  { intros key f [H|H]; [|now rewrite H].
    destruct (String.eqb_spec (Query_Get u key) ""); [contradiction|reflexivity]. }
  assert (Henc : encoder lib c' = encoder lib c).
  { unfold encoder. rewrite Hf, Hu. cbv zeta.
    rewrite (E "level" Level H1), (E "encoding" Encoding H2),
      (E "encoding-time" EncodingTime H3),
      (E "encoding-duration" EncodingDuration H4).
    reflexivity. }
  split; [exact Henc|].
  intros checkOnly. unfold build. rewrite Hf, Henc. reflexivity.
Qed.

(** X16.  Neither [Check] nor the no-op logger opens an output: whatever
    the writer factory would do, [Check] gives the same verdict, and for a
    file whose path is [none] [BuildLogger] gives the same result, which is
    the no-op logger as soon as [Check] passes. *)
Theorem none_opens_no_writer (c : Config) (u : FileURL)
    (new : string -> cfg_error + WriteSyncer) :
  net_url_Parse lib (File c) = inr u ->
  strings_ToLower lib (Path u) = "none" ->
  Check (with_New lib new) c = Check lib c /\
  BuildLogger (with_New lib new) c = BuildLogger lib c /\
  (Check lib c = None -> BuildLogger lib c = (Some NewNop, None)).
Proof.
  intros Hu Hnone.
  assert (Henc : encoder (with_New lib new) c = encoder lib c) by reflexivity.
  unfold Check, BuildLogger, build. rewrite Henc.
  cbn [net_url_Parse strings_ToLower with_New]. rewrite Hu, Hnone.
  destruct (encoder lib c) as [[e l] [err|]]; cbn; auto.
  repeat split; discriminate.
Qed.

End LoggerConfig.

Section LoggerScenarios.

Import Zapwriter.

(** A file nobody may write: [Check] passes, [BuildLogger] reports the
    writer's error; and an unknown level: both report it. *)
Lemma Check_guards_BuildLogger_witness :
  Check sample (to_file "/forbidden.log") = None /\
  BuildLogger sample (to_file "/forbidden.log")
  = (None, Some (Foreign "os" "permission denied")) /\
  Check sample (to_file "stderr?level=LOUD")
  = Some (Foreign "zapcore" "unrecognized level") /\
  BuildLogger sample (to_file "stderr?level=LOUD")
  = (None, Some (Foreign "zapcore" "unrecognized level")).
Proof.
  assert (H1 : Check sample (to_file "/forbidden.log") = None) by reflexivity.
  assert (H2 : Check sample (to_file "stderr?level=LOUD")
               = Some (Foreign "zapcore" "unrecognized level")) by reflexivity.
  split; [exact H1|]. split.
  - destruct (proj2 (Check_guards_BuildLogger sample (to_file "/forbidden.log")) H1)
      as (u & enc & lvl & Hu & _ & Hb).
    rewrite Hb. vm_compute in Hu. inversion Hu; subst. reflexivity.
  - split; [exact H2|].
    exact (proj1 (Check_guards_BuildLogger sample (to_file "stderr?level=LOUD")) _ H2).
Defined.

(** The default configuration is valid. *)
Lemma Check_accepts_exactly_witness :
  Check sample NewConfig = None /\ Valid sample NewConfig.
Proof.
  assert (H : Check sample NewConfig = None) by reflexivity.
  split; [exact H|]. exact (proj1 (Check_accepts_exactly sample NewConfig) H).
Defined.

(** The query names the level and the encoding; the fields for them, and
    the logger name, differ between the two configurations. *)
Lemma query_overrides_fields_witness :
  File whispering = File shouting /\
  (exists u, net_url_Parse sample (File shouting) = inr u /\
             Query_Get u "level" = "debug" /\ Query_Get u "encoding" = "JSON") /\
  EncodingTime whispering = EncodingTime shouting /\
  EncodingDuration whispering = EncodingDuration shouting /\
  Level whispering <> Level shouting /\
  BuildLogger sample whispering = BuildLogger sample shouting.
Proof.
  assert (Hu : net_url_Parse sample (File shouting)
               = inr {| Path := "stderr";
                        Query_Get := fun key =>
                          lookup (S (String.length "level=debug&encoding=JSON")) key
                            "level=debug&encoding=JSON" |}) by reflexivity.
  split; [reflexivity|]. split; [eexists; split; [exact Hu|split; reflexivity]|].
  split; [reflexivity|]. split; [reflexivity|]. split; [discriminate|].
  refine (proj2 (@query_overrides_fields sample shouting whispering _
                   eq_refl Hu _ _ _ _) false).
  - left. discriminate.
  - left. discriminate.
  - right. reflexivity.
  - right. reflexivity.
Defined.

(** [NONE], with a level in the query, and a writer factory that fails. *)
Lemma none_opens_no_writer_witness :
  (exists u, net_url_Parse sample (File (to_file "NONE?level=error")) = inr u /\
             strings_ToLower sample (Path u) = "none") /\
  Check sample (to_file "NONE?level=error") = None /\
  BuildLogger (with_New sample no_writer) (to_file "NONE?level=error")
  = (Some NewNop, None).
Proof.
  assert (Hu : net_url_Parse sample (File (to_file "NONE?level=error"))
               = inr {| Path := "NONE";
                        Query_Get := fun key =>
                          lookup (S (String.length "level=error")) key "level=error" |})
    by reflexivity.
  assert (Hn : strings_ToLower sample "NONE" = "none") by reflexivity.
  assert (Hc : Check sample (to_file "NONE?level=error") = None) by reflexivity.
  split; [eexists; split; [exact Hu|exact Hn]|]. split; [exact Hc|].
  destruct (none_opens_no_writer sample (to_file "NONE?level=error") no_writer Hu Hn)
    as (_ & Hsame & Hnop).
  rewrite Hsame. exact (Hnop Hc).
Defined.

End LoggerScenarios.
